(** * Samsung MTP tool: the command/response framing layer

    A shallow embedding of the packet codec ([src/lib/mtp-utils.ts]), of
    the native transport session ([UsbMtpModule.kt]) and of the success
    policy of the React hook ([src/hooks/use-usb-device.ts]), followed by
    the properties of the framing layer.

    Conventions.
    - A byte is a [Z]; a buffer ([Uint8Array], [ByteArray]) is a [list Z].
      Writers only ever store values in [0,256).
    - A JavaScript number that the code uses as an integer is a [Z].
      Fixed-width stores truncate ([ToUint16], [ToUint32]); the truncation
      is written out by [le_bytes].
    - A Kotlin [Int] is a [Z] kept in range by [int32].
    - A JavaScript string is the list of its UTF-16 code units.
    - Code that can throw returns a [result]. *)

From Stdlib Require Import ZArith Lia String Ascii.
From stdpp Require Import base list.

Local Open Scope Z_scope.

(** ** Exceptions *)

Inductive exn : Set :=
| RangeError                 (* JS: DataView access outside the view *)
| BufferOverflowException    (* JVM: relative put past the limit *)
| BufferUnderflowException.  (* JVM: relative get past the limit *)

Inductive result (A : Type) : Type :=
| Ok (a : A)
| Throw (e : exn).
Arguments Ok {A} a.
Arguments Throw {A} e.

Definition rbind {A B} (c : result A) (k : A -> result B) : result B :=
  match c with
  | Ok a => k a
  | Throw e => Throw e
  end.

Notation "x <- c ;; k" := (rbind c (fun x => k))
  (at level 100, c at next level, right associativity).

(** ** Little-endian fixed-width integers *)

(** The [n] low-order bytes of [v], least significant first.  [Z.modulo]
    and [Z.div] round towards minus infinity, so a negative [v] yields its
    two's-complement bytes, as [ToUint32] and [ByteBuffer.putInt] do. *)
Fixpoint le_bytes (n : nat) (v : Z) : list Z :=
  match n with
  | O => []
  | S n' => v mod 256 :: le_bytes n' (v / 256)
  end.

Fixpoint le_value (bs : list Z) : Z :=
  match bs with
  | [] => 0
  | b :: bs' => b + 256 * le_value bs'
  end.

Definition len (buf : list Z) : Z := Z.of_nat (length buf).

(** The [width] bytes at [off .. off+width-1] lie inside the buffer. *)
Definition in_bounds (buf : list Z) (off : Z) (width : nat) : bool :=
  (0 <=? off) && (off + Z.of_nat width <=? len buf).

(** ** [DataView] *)

Module DataView.

Definition setUint (width : nat) (view : list Z) (byteOffset value : Z)
  : result (list Z) :=
  if in_bounds view byteOffset width
  then Ok (list_inserts (Z.to_nat byteOffset) (le_bytes width value) view)
  else Throw RangeError.

Definition getUint (width : nat) (view : list Z) (byteOffset : Z)
  : result Z :=
  if in_bounds view byteOffset width
  then Ok (le_value (take width (drop (Z.to_nat byteOffset) view)))
  else Throw RangeError.

(** Always called with [littleEndian = true] in this code base. *)
Definition setUint16 := setUint 2.
Definition setUint32 := setUint 4.
Definition getUint16 := getUint 2.
Definition getUint32 := getUint 4.

End DataView.

(** ** JavaScript strings and the builtins the codec calls *)

Module JS.

(** A string is the sequence of its UTF-16 code units. *)
Definition jsstring : Set := list Z.

Definition str (s : string) : jsstring :=
  map (fun a => Z.of_N (N_of_ascii a)) (list_ascii_of_string s).

(** [WhiteSpace] and [LineTerminator] of ECMAScript: what
    [String.prototype.trim] strips and [parseInt] skips. *)
Definition isWhiteSpace (c : Z) : bool :=
  (c =? 0x0009) || (c =? 0x000A) || (c =? 0x000B) || (c =? 0x000C) ||
  (c =? 0x000D) || (c =? 0x0020) || (c =? 0x00A0) || (c =? 0x1680) ||
  ((0x2000 <=? c) && (c <=? 0x200A)) ||
  (c =? 0x2028) || (c =? 0x2029) || (c =? 0x202F) || (c =? 0x205F) ||
  (c =? 0x3000) || (c =? 0xFEFF).

Fixpoint trimStart (s : jsstring) : jsstring :=
  match s with
  | c :: s' => if isWhiteSpace c then trimStart s' else s
  | [] => []
  end.

Definition trimEnd (s : jsstring) : jsstring :=
  reverse (trimStart (reverse s)).

Definition trim (s : jsstring) : jsstring := trimEnd (trimStart s).

Definition isHexDigit (c : Z) : bool :=
  ((0x30 <=? c) && (c <=? 0x39)) ||    (* 0-9 *)
  ((0x41 <=? c) && (c <=? 0x46)) ||    (* A-F *)
  ((0x61 <=? c) && (c <=? 0x66)).      (* a-f *)

Definition hexDigitValue (c : Z) : Z :=
  if c <=? 0x39 then c - 0x30
  else if c <=? 0x46 then c - 0x41 + 10
  else c - 0x61 + 10.

(** The longest prefix of hexadecimal digits. *)
Fixpoint hexPrefix (s : jsstring) : jsstring :=
  match s with
  | c :: s' => if isHexDigit c then c :: hexPrefix s' else []
  | [] => []
  end.

(** The number a digit sequence denotes, most significant digit first. *)
Definition hexValue (digits : jsstring) : Z :=
  foldl (fun acc c => acc * 16 + hexDigitValue c) 0 digits.

(** A leading [0x] or [0X], removed when present. *)
Definition strip0x (s : jsstring) : jsstring :=
  match s with
  | c0 :: c1 :: rest =>
      if (c0 =? 0x30) && ((c1 =? 0x78) || (c1 =? 0x58)) then rest else s
  | _ => s
  end.

(** [parseInt(s, 16)]; [None] is [NaN].  Leading white space is skipped,
    then an optional sign, then an optional [0x]/[0X]; the value is that
    of the longest run of hex digits that follows, [NaN] when that run is
    empty.  (Exact below 2^53, which covers every call in this code.) *)
Definition parseInt16 (s : jsstring) : option Z :=
  let s := trimStart s in
  let sign := match s with
              | c :: _ => if c =? 0x2D then -1 else 1
              | [] => 1
              end in
  let s := match s with
           | c :: s' => if (c =? 0x2D) || (c =? 0x2B) then s' else s
           | [] => s
           end in
  let digits := hexPrefix (strip0x s) in
  match digits with
  | [] => None
  | _ => Some (sign * hexValue digits)
  end.

Definition digitChar (d : Z) : Z :=
  if d <? 10 then 0x30 + d else 0x61 + (d - 10).

(** The digits of [n >= 0] in base 16, most significant first; [fuel]
    bounds the number of digits. *)
Fixpoint hexDigits (fuel : nat) (n : Z) : jsstring :=
  match fuel with
  | O => []
  | S fuel' =>
      if n <? 16 then [digitChar n]
      else hexDigits fuel' (n / 16) ++ [digitChar (n mod 16)]
  end.

(** [n.toString(16)] for an integer [n]: lowercase digits, no leading
    zero, a minus sign for negatives.  A number below 2^k has at most
    k digits, so [Z.log2 n + 1] is fuel enough. *)
Definition toString16 (n : Z) : jsstring :=
  let digits m := hexDigits (S (Z.to_nat (Z.log2 m))) m in
  if n <? 0 then 0x2D :: digits (- n) else digits n.

(** [toUpperCase] on the code units [toString16] can produce. *)
Definition toUpperCase (s : jsstring) : jsstring :=
  map (fun c => if (0x61 <=? c) && (c <=? 0x7A) then c - 0x20 else c) s.

(** [s.padStart(targetLength, fill)] with a one-unit [fill]. *)
Definition padStart (targetLength : nat) (fill : Z) (s : jsstring) : jsstring :=
  replicate (targetLength - length s) fill ++ s.

End JS.

(** ** The packet codec: [src/lib/mtp-utils.ts] *)

Module MtpUtils.

Import DataView.

(** [MTP_CONTAINER_TYPE] *)
Definition COMMAND : Z := 0x0001.
Definition DATA : Z := 0x0002.
Definition RESPONSE : Z := 0x0003.
Definition EVENT : Z := 0x0004.

(** [MTP_RESPONSE.OK] *)
Definition MTP_RESPONSE_OK : Z := 0x2001.

(** [params.forEach((param, index) => f(param, index))] over a view
    that [f] updates. *)
Fixpoint forEach (f : Z -> Z -> list Z -> result (list Z))
         (params : list Z) (index : Z) (view : list Z) : result (list Z) :=
  match params with
  | [] => Ok view
  | param :: rest =>
      view' <- f param index view ;;
      forEach f rest (index + 1) view'
  end.

Definition buildMtpCommandPacket (opcode transactionId : Z) (params : list Z)
  : result (list Z) :=
  let headerLength := 12 in
  let paramsLength := len params * 4 in
  let totalLength := headerLength + paramsLength in
  let view := replicate (Z.to_nat totalLength) 0 in
  view <- setUint32 view 0 totalLength ;;
  view <- setUint16 view 4 COMMAND ;;
  view <- setUint16 view 6 opcode ;;
  view <- setUint32 view 8 transactionId ;;
  forEach (fun param index view =>
             setUint32 view (headerLength + index * 4) param)
          params 0 view.

Record MtpResponse : Set := mkResponse {
  r_length : Z;
  r_type : Z;
  r_code : Z;
  r_transactionId : Z;
  r_params : list Z
}.

(** [for (let i = 0; i < paramsCount; i++) params.push(getUint32(12 + i*4))],
    by recursion on the number of iterations still to run. *)
Fixpoint readParams (view : list Z) (remaining : nat) (i : Z)
         (params : list Z) : result (list Z) :=
  match remaining with
  | O => Ok params
  | S remaining' =>
      p <- getUint32 view (12 + i * 4) ;;
      readParams view remaining' (i + 1) (params ++ [p])
  end.

(** [null] is [Ok None]. [Math.floor((length - 12) / 4)] is [Z.div], which
    floors; the loop runs [max 0 paramsCount] times. *)
Definition parseMtpResponse (data : list Z) : result (option MtpResponse) :=
  if len data <? 12 then Ok None
  else
    length <- getUint32 data 0 ;;
    type <- getUint16 data 4 ;;
    code <- getUint16 data 6 ;;
    transactionId <- getUint32 data 8 ;;
    let paramsStart := 12 in
    let paramsCount := (length - paramsStart) / 4 in
    params <- readParams data (Z.to_nat paramsCount) 0 [] ;;
    Ok (Some (mkResponse length type code transactionId params)).

Import JS.

Definition formatOpcode (code : Z) : jsstring :=
  str "0x" ++ padStart 4 0x30 (toUpperCase (toString16 code)).

(** [/^[0-9A-Fa-f]{1,4}$/.test(cleaned)] *)
Definition isHex1to4 (cleaned : jsstring) : bool :=
  forallb isHexDigit cleaned
  && (1 <=? length cleaned)%nat && (length cleaned <=? 4)%nat.

(** [hex.replace(/^0x/i, '')] is [strip0x hex]: without the [u] flag the
    only code units that match [x] case-insensitively are [x] and [X].
    [null] is [None]. *)
Definition parseHexOpcode (hex : jsstring) : option Z :=
  let cleaned := trim (strip0x hex) in
  if negb (isHex1to4 cleaned) then None
  else
    match parseInt16 cleaned with
    | None => None                                     (* isNaN(value) *)
    | Some value =>
        if (value <? 0) || (value >? 0xFFFF) then None
        else Some value
    end.

(** *** Advisory tables *)

Inductive Category : Set := dangerous | safe | read_only.

(** [OpcodePreset]; the description and warning texts are display
    strings and are left out. *)
Record OpcodePreset : Set := mkPreset {
  p_code : Z;
  p_name : string;
  p_category : Category
}.

Definition PRESET_OPCODES : list OpcodePreset :=
  [ mkPreset 0xFE01 "Factory Reset" dangerous;
    mkPreset 0xFE03 "Enable ADB" safe;
    mkPreset 0xFE05 "Reboot Device" safe;
    mkPreset 0xFE07 "Read Device Info" read_only;
    mkPreset 0xFE09 "Read FRP Status" read_only;
    mkPreset 0xFE0B "Clear FRP Lock" dangerous ].

Record OpcodeRange : Set := mkRange {
  g_start : Z;
  g_end : Z;
  g_name : string
}.

Definition OPCODE_RANGES : list OpcodeRange :=
  [ mkRange 0x1000 0x1FFF "Standard MTP Operations";
    mkRange 0x9000 0x97FF "Vendor Extension Operations";
    mkRange 0x9800 0x9FFF "Microsoft MTP Extensions";
    mkRange 0xFE00 0xFEFF "Samsung Vendor Commands";
    mkRange 0xFF00 0xFFFF "Extended Vendor Commands" ].

Definition getOpcodeRangeInfo (code : Z) : option OpcodeRange :=
  List.find (fun range => (g_start range <=? code) && (code <=? g_end range))
            OPCODE_RANGES.

(** [None] is ['unknown']. *)
Definition getOpcodeCategory (code : Z) : option Category :=
  match List.find (fun p => p_code p =? code) PRESET_OPCODES with
  | Some preset => Some (p_category preset)
  | None => None
  end.

(** *** Advisory helpers *)

(** [suggestions.push(x)] appends.  [%] is the remainder that truncates
    ([Z.rem]); [includes] is [existsb] with [===]. *)
Definition getExplorationSuggestions (currentOpcode : Z) : list Z :=
  let suggestions : list Z := [] in
  let suggestions :=
    if currentOpcode >? 0 then suggestions ++ [currentOpcode - 1]
    else suggestions in
  let suggestions :=
    if currentOpcode <? 0xFFFF then suggestions ++ [currentOpcode + 1]
    else suggestions in
  let suggestions :=
    if (currentOpcode >=? 0xFE00) && (currentOpcode <=? 0xFEFF) then
      let nextOdd :=
        if Z.rem currentOpcode 2 =? 0 then currentOpcode + 1
        else currentOpcode + 2 in
      if (nextOdd <=? 0xFEFF) && negb (existsb (Z.eqb nextOdd) suggestions)
      then suggestions ++ [nextOdd]
      else suggestions
    else suggestions in
  List.filter (fun s => (s >=? 0) && (s <=? 0xFFFF)) suggestions.



Definition isVendorOpcode (code : Z) : bool :=
  (code >=? 0x9000) && (code <=? 0xFFFF).

(** [preset?.name || formatOpcode(code)] *)
Definition getOpcodeName (code : Z) : jsstring :=
  match List.find (fun p => p_code p =? code) PRESET_OPCODES with
  | Some preset => match p_name preset with
                   | EmptyString => formatOpcode code
                   | name => str name
                   end
  | None => formatOpcode code
  end.

End MtpUtils.

(** ** The transport session: [UsbMtpModule.kt] *)

Module UsbMtpModule.

(** Kotlin [Int] and [Short]: two's-complement wrap-around. *)
Definition int32 (z : Z) : Z := (z + 2^31) mod 2^32 - 2^31.
Definition int16 (z : Z) : Z := (z + 2^15) mod 2^16 - 2^15.

(** Companion-object constants. *)
Definition MTP_CONTAINER_TYPE_COMMAND : Z := 0x0001.
Definition MTP_RESPONSE_OK : Z := 0x2001.

(** [android.hardware.usb.UsbConstants]. *)
Definition USB_CLASS_STILL_IMAGE : Z := 6.
Definition USB_CLASS_VENDOR_SPEC : Z := 0xFF.
Definition USB_ENDPOINT_XFER_BULK : Z := 2.
Definition USB_DIR_OUT : Z := 0.
Definition USB_DIR_IN : Z := 0x80.

Record UsbEndpoint : Set := mkEndpoint {
  e_type : Z;
  e_direction : Z;
  e_address : Z
}.

Record UsbInterface : Set := mkInterface {
  interfaceClass : Z;
  endpoints : list UsbEndpoint
}.

Record UsbDevice : Set := mkDevice {
  deviceId : Z;
  interfaces : list UsbInterface
}.

(** An open [UsbDeviceConnection], identified by its file descriptor. *)
Definition UsbDeviceConnection : Set := Z.

(** *** [java.nio.ByteBuffer], little-endian, relative access *)

Record ByteBuffer : Set := mkBuffer {
  hb : list Z;
  position : Z
}.

Definition allocate (capacity : Z) : ByteBuffer :=
  mkBuffer (replicate (Z.to_nat capacity) 0) 0.

Definition wrap (array : list Z) : ByteBuffer := mkBuffer array 0.

Definition put (width : nat) (b : ByteBuffer) (v : Z) : result ByteBuffer :=
  if in_bounds (hb b) (position b) width
  then Ok (mkBuffer
             (list_inserts (Z.to_nat (position b)) (le_bytes width v) (hb b))
             (position b + Z.of_nat width))
  else Throw BufferOverflowException.

Definition get (width : nat) (b : ByteBuffer) : result (Z * ByteBuffer) :=
  if in_bounds (hb b) (position b) width
  then Ok (le_value (take width (drop (Z.to_nat (position b)) (hb b))),
           mkBuffer (hb b) (position b + Z.of_nat width))
  else Throw BufferUnderflowException.

Definition putInt := put 4.
Definition putShort := put 2.

Definition getInt (b : ByteBuffer) : result (Z * ByteBuffer) :=
  r <- get 4 b ;; Ok (int32 r.1, r.2).

Definition getShort (b : ByteBuffer) : result (Z * ByteBuffer) :=
  r <- get 2 b ;; Ok (int16 r.1, r.2).

(** [for (param in params) buffer.putInt(param)] *)
Fixpoint putParams (buffer : ByteBuffer) (params : list Z) : result ByteBuffer :=
  match params with
  | [] => Ok buffer
  | param :: rest => buffer' <- putInt buffer param ;; putParams buffer' rest
  end.

(** Sizes are far from the [Int] range (2^29 parameters would be needed
    to overflow), so their arithmetic is left unwrapped. *)
Definition buildMtpCommandPacket (opcode transactionId : Z) (params : list Z)
  : result (list Z) :=
  let headerSize := 12 in
  let paramsSize := len params * 4 in
  let totalSize := headerSize + paramsSize in
  let buffer := allocate totalSize in
  buffer <- putInt buffer totalSize ;;
  buffer <- putShort buffer MTP_CONTAINER_TYPE_COMMAND ;;
  buffer <- putShort buffer (int16 opcode) ;;             (* opcode.toShort() *)
  buffer <- putInt buffer transactionId ;;
  buffer <- putParams buffer params ;;
  Ok (hb buffer).

(** *** Module state *)

Record State : Set := mkState {
  currentDevice : option UsbDevice;
  currentConnection : option UsbDeviceConnection;
  currentInterface : option UsbInterface;
  bulkOutEndpoint : option UsbEndpoint;
  bulkInEndpoint : option UsbEndpoint;
  transactionId : Z
}.

(** The field initialisers of the class. *)
Definition initial : State := mkState None None None None None 1.

Definition set_transactionId (s : State) (t : Z) : State :=
  mkState (currentDevice s) (currentConnection s) (currentInterface s)
          (bulkOutEndpoint s) (bulkInEndpoint s) t.

(** What a [@ReactMethod] hands to its promise; the message text of a
    rejection is left out. *)
Inductive Promise (A : Type) : Type :=
| Resolve (a : A)
| Reject (code : string).
Arguments Resolve {A} a.
Arguments Reject {A} code.

Definition closeConnection (s : State) : State :=
  mkState None None None None None (transactionId s).

(** *** [openConnection] *)

(** What the USB manager answers during [openConnection]. *)
Record UsbManager : Type := mkManager {
  deviceList : list UsbDevice;
  hasPermission : UsbDevice -> bool;
  openDevice : UsbDevice -> option UsbDeviceConnection;
  claimInterface : UsbDeviceConnection -> UsbInterface -> bool
}.

Record ConnectionInfo : Set := mkConnectionInfo {
  ci_deviceId : Z;
  ci_interfaceClass : Z;
  ci_outEndpoint : Z;
  ci_inEndpoint : Z
}.

Definition findDeviceById (m : UsbManager) (id : Z) : option UsbDevice :=
  List.find (fun d => deviceId d =? id) (deviceList m).

Definition Endpoints : Set := (option UsbEndpoint * option UsbEndpoint)%type.

(** First search: inner loop, the last bulk endpoint of each direction
    wins. *)
Definition scanLast (eps : list UsbEndpoint) (found : Endpoints) : Endpoints :=
  foldl (fun (acc : Endpoints) endpoint =>
           if e_type endpoint =? USB_ENDPOINT_XFER_BULK then
             if e_direction endpoint =? USB_DIR_OUT then (Some endpoint, acc.2)
             else if e_direction endpoint =? USB_DIR_IN then (acc.1, Some endpoint)
             else acc
           else acc)
        found eps.

(** Second search: inner loop, the first bulk endpoint of each direction
    wins. *)
Definition scanFirst (eps : list UsbEndpoint) (found : Endpoints) : Endpoints :=
  foldl (fun (acc : Endpoints) endpoint =>
           if e_type endpoint =? USB_ENDPOINT_XFER_BULK then
             if (e_direction endpoint =? USB_DIR_OUT) && bool_decide (acc.1 = None)
             then (Some endpoint, acc.2)
             else if (e_direction endpoint =? USB_DIR_IN) && bool_decide (acc.2 = None)
             then (acc.1, Some endpoint)
             else acc
           else acc)
        found eps.

(** First search: an interface of class still-image or vendor-specific
    with both bulk endpoints.  [outEndpoint] and [inEndpoint] are not
    reset between interfaces. *)
Fixpoint findMtpInterface (intfs : list UsbInterface) (found : Endpoints)
  : option UsbInterface * Endpoints :=
  match intfs with
  | [] => (None, found)
  | intf :: rest =>
      if (interfaceClass intf =? USB_CLASS_STILL_IMAGE)
         || (interfaceClass intf =? USB_CLASS_VENDOR_SPEC)
         || (interfaceClass intf =? 0xFF)
      then
        let found := scanLast (endpoints intf) found in
        match found with
        | (Some _, Some _) => (Some intf, found)
        | _ => findMtpInterface rest found
        end
      else findMtpInterface rest found
  end.

(** Second search: any interface with a bulk OUT endpoint. *)
Fixpoint findBulkInterface (intfs : list UsbInterface) (found : Endpoints)
  : option UsbInterface * Endpoints :=
  match intfs with
  | [] => (None, found)
  | intf :: rest =>
      let found := scanFirst (endpoints intf) (None, None) in
      match found.1 with
      | Some _ => (Some intf, found)
      | None => findBulkInterface rest found
      end
  end.

Definition openConnection (s : State) (m : UsbManager) (id : Z)
  : State * Promise ConnectionInfo :=
  match findDeviceById m id with
  | None => (s, Reject "DEVICE_NOT_FOUND")
  | Some device =>
      if negb (hasPermission m device) then (s, Reject "NO_PERMISSION")
      else
        let s := closeConnection s in
        match openDevice m device with
        | None => (s, Reject "CONNECTION_FAILED")
        | Some connection =>
            let r := findMtpInterface (interfaces device) (None, None) in
            let r := match r.1 with
                     | None => findBulkInterface (interfaces device) r.2
                     | Some _ => r
                     end in
            match r with
            | (Some mtpInterface, (Some outEndpoint, inEndpoint)) =>
                if negb (claimInterface m connection mtpInterface)
                then (s, Reject "CLAIM_FAILED")
                else
                  (mkState (Some device) (Some connection) (Some mtpInterface)
                           (Some outEndpoint) inEndpoint 1,
                   Resolve (mkConnectionInfo
                              (deviceId device)
                              (interfaceClass mtpInterface)
                              (e_address outEndpoint)
                              (match inEndpoint with
                               | Some e => e_address e
                               | None => -1
                               end)))
            | _ => (s, Reject "NO_MTP_INTERFACE")
            end
        end
  end.

(** *** [sendMtpCommand] *)

Definition BULK_TRANSFER_TIMEOUT_MS : Z := 3000.

(** What the bus answers during one command: the return value of the
    OUT transfer, the return value of the IN transfer, and the bytes the
    device delivered into the receive buffer. *)
Record UsbIO : Set := mkIO {
  out_result : Z;
  in_result : Z;
  in_bytes : list Z
}.

(** The calls made on the connection, in order. *)
Inductive UsbAction : Set :=
| BulkOut (endpoint : UsbEndpoint) (buffer : list Z) (length timeout : Z)
| BulkIn (endpoint : UsbEndpoint) (length timeout : Z).

Record MtpCommandResult : Set := mkResult {
  bytesSent : Z;
  opcode : Z;
  res_transactionId : Z;
  responseCode : Z;
  success : bool;
  responseData : option (list Z)
}.

(** [ByteArray.copyOf(newSize)]: truncates, or pads with zeros. *)
Definition copyOf (a : list Z) (newSize : Z) : list Z :=
  take (Z.to_nat newSize) a
  ++ replicate (Z.to_nat newSize - length a) 0.

(** The [bulkInEndpoint?.let { ... }] block: the response code and the
    response data it leaves in the two local variables. *)
Definition readResponse (inEndpoint : UsbEndpoint) (io : UsbIO)
  : result (Z * option (list Z)) :=
  let responseBuffer := list_inserts 0 (take 512 (in_bytes io)) (replicate 512 0) in
  let bytesRead := in_result io in
  if bytesRead >? 0 then
    let responseData := copyOf responseBuffer bytesRead in
    if bytesRead >=? 12 then
      let buffer := wrap responseBuffer in
      r <- getInt buffer ;;
      let length := r.1 in
      r <- getShort r.2 ;;
      let type := r.1 in
      r <- getShort r.2 ;;
      let responseCode := Z.land r.1 0xFFFF in
      Ok (responseCode, Some responseData)
    else Ok (-1, Some responseData)
  else Ok (-1, None).

(** [params] holds the [Int]s that [getInt] returns; [None] is a [null]
    array.  An exception inside the [try] rejects with [SEND_ERROR]. *)
Definition sendMtpCommand (s : State) (opcode : Z) (params : option (list Z))
           (io : UsbIO) : State * Promise MtpCommandResult * list UsbAction :=
  match currentConnection s, bulkOutEndpoint s with
  | Some connection, Some outEndpoint =>
      let paramList := match params with Some l => l | None => [] end in
      let txId := transactionId s in
      let s := set_transactionId s (int32 (txId + 1)) in   (* transactionId++ *)
      match buildMtpCommandPacket opcode txId paramList with
      | Throw _ => (s, Reject "SEND_ERROR", [])
      | Ok packet =>
          let sent := [BulkOut outEndpoint packet (len packet)
                               BULK_TRANSFER_TIMEOUT_MS] in
          let bytesSent := out_result io in
          if bytesSent <? 0 then (s, Reject "TRANSFER_FAILED", sent)
          else
            let finish (responseCode : Z) (responseData : option (list Z)) :=
              Resolve (mkResult bytesSent opcode
                                (int32 (transactionId s - 1))
                                responseCode
                                (bytesSent >? 0)
                                responseData) in
            match bulkInEndpoint s with
            | None => (s, finish (-1) None, sent)
            | Some inEndpoint =>
                let received := sent ++ [BulkIn inEndpoint 512
                                                BULK_TRANSFER_TIMEOUT_MS] in
                match readResponse inEndpoint io with
                | Throw _ => (s, Reject "SEND_ERROR", received)
                | Ok (responseCode, responseData) =>
                    (s, finish responseCode responseData, received)
                end
            end
      end
  | _, _ => (s, Reject "NOT_CONNECTED", [])
  end.

(** *** [sendRawData], [isConnected] and the detach receiver *)

Record RawDataResult : Set := mkRaw {
  raw_bytesSent : Z;
  raw_success : bool
}.

(** [Int.toByte()]: the low-order eight bits.  A [ByteArray] is held as
    the octets that go on the wire, so the signed [Byte] is read as its
    unsigned value. *)
Definition toByte (x : Z) : Z := x mod 256.

(** [data] holds the [Int]s that [getInt] returns. *)
Definition sendRawData (s : State) (data : list Z) (io : UsbIO)
  : State * Promise RawDataResult * list UsbAction :=
  match currentConnection s, bulkOutEndpoint s with
  | Some connection, Some outEndpoint =>
      let byteArray := map toByte data in
      let sent := [BulkOut outEndpoint byteArray (len byteArray)
                           BULK_TRANSFER_TIMEOUT_MS] in
      let bytesSent := out_result io in
      if bytesSent <? 0 then (s, Reject "TRANSFER_FAILED", sent)
      else (s, Resolve (mkRaw bytesSent (bytesSent >? 0)), sent)
  | _, _ => (s, Reject "NOT_CONNECTED", [])
  end.

(** [currentConnection != null && currentDevice != null] *)
Definition isConnected (s : State) : bool :=
  match currentConnection s, currentDevice s with
  | Some _, Some _ => true
  | _, _ => false
  end.

(** The [ACTION_USB_DEVICE_DETACHED] branch of [usbDeviceReceiver]: the
    connection is closed when the detached device is the current one. *)
Definition onDeviceDetached (s : State) (device : UsbDevice) : State :=
  match currentDevice s with
  | Some current =>
      if deviceId current =? deviceId device then closeConnection s else s
  | None => s
  end.

End UsbMtpModule.

(** ** The hook: [sendCommand] in [use-usb-device.ts] *)

Module UseUsbDevice.

Import UsbMtpModule.

(** [result.success && (result.responseCode === -1 ||
    result.responseCode === 0x2001)] *)
Definition isSuccess (result : MtpCommandResult) : bool :=
  success result
  && ((responseCode result =? -1) || (responseCode result =? 0x2001)).

(** The boolean [sendCommand] returns once the session is connected.
    [native] is what awaiting [UsbMtpModule.sendMtpCommand] gives: [None]
    is the [null] of an unavailable native module, a rejection is thrown
    and caught. *)
Definition sendCommandResult (native : option (Promise MtpCommandResult)) : bool :=
  match native with
  | None => false
  | Some (Reject _) => false
  | Some (Resolve result) => isSuccess result
  end.

(** One exchange, end to end: the native call and the hook's verdict. *)
Definition sendCommand (s : State) (opcode : Z) (params : list Z) (io : UsbIO)
  : State * bool :=
  let r := sendMtpCommand s opcode (Some params) io in
  (r.1.1, sendCommandResult (Some r.1.2)).

(** *** The list of available devices *)

Section DeviceList.

(** The hook's [UsbDevice] records; only [deviceId] is inspected. *)
Context {Device : Type} (deviceIdOf : Device -> Z).

(** The updater of [onDeviceAttached]:
    [prev.some(d => d.deviceId === newDevice.deviceId) ? prev : [...prev, newDevice]] *)
Definition deviceAttached (prev : list Device) (newDevice : Device) : list Device :=
  if existsb (fun d => deviceIdOf d =? deviceIdOf newDevice) prev then prev
  else prev ++ [newDevice].

(** The updater of [onDeviceDetached]:
    [prev.filter(d => d.deviceId !== deviceInfo.deviceId)] *)
Definition deviceDetached (prev : list Device) (detachedId : Z) : list Device :=
  List.filter (fun d => negb (deviceIdOf d =? detachedId)) prev.

End DeviceList.

End UseUsbDevice.

(** ** The home screen: [src/app/(tabs)/index.tsx] *)

Module HomeScreen.

Import JS MtpUtils.

(** [text.replace(/[^0-9A-Fa-f]/g, "").toUpperCase()] then [slice(0, 4)]:
    the value that [handleOpcodeChange] stores in [manualOpcode]. *)
Definition handleOpcodeChange (text : jsstring) : jsstring :=
  let cleaned := toUpperCase (List.filter isHexDigit text) in
  take 4 cleaned.

(** The opcode that [handleSendManual] passes to [sendCommand]; [None]
    is the branch that sets the input error instead. *)
Definition handleSendManual (manualOpcode : jsstring) : option Z :=
  parseHexOpcode manualOpcode.

(** [manualOpcode.length >= 2 ? getOpcodeRangeInfo(parseInt(manualOpcode, 16)) : null];
    every comparison with [NaN] is false, so [NaN] is in no range. *)
Definition currentRangeInfo (manualOpcode : jsstring) : option OpcodeRange :=
  if (2 <=? length manualOpcode)%nat then
    match parseInt16 manualOpcode with
    | Some code => getOpcodeRangeInfo code
    | None => None
    end
  else None.

End HomeScreen.

(** ** Reference readers *)

(** The unsigned little-endian integer held by the [width] bytes at [off]. *)
Definition uint_at (width : nat) (buf : list Z) (off : Z) : Z :=
  le_value (take width (drop (Z.to_nat off) buf)).

(** The number of parameters that the length field of a container claims. *)
Definition claimedParams (buffer : list Z) : Z :=
  Z.max 0 ((uint_at 4 buffer 0 - 12) / 4).

(** The number of whole parameters that a buffer holds after the header. *)
Definition availableParams (buffer : list Z) : Z := (len buffer - 12) / 4.

(** The reader that the design document describes: the parameter count
    [floor((totalLength - 12) / 4)] is clamped to the bytes that are
    there, so an over-claiming container is truncated. *)
Definition parseResponse_clamped (buffer : list Z) : option MtpUtils.MtpResponse :=
  if len buffer <? 12 then None
  else
    let count := Z.min (claimedParams buffer) (availableParams buffer) in
    Some (MtpUtils.mkResponse
            (uint_at 4 buffer 0) (uint_at 2 buffer 4)
            (uint_at 2 buffer 6) (uint_at 4 buffer 8)
            (map (fun k => uint_at 4 buffer (12 + 4 * Z.of_nat k))
                 (seq 0 (Z.to_nat count)))).

(** The command container of the wire format:
    [len:u32][type:u16=0x0001][opcode:u16][txId:u32][param:u32]..., every
    field little-endian. *)
Definition commandContainer (opcode transactionId : Z) (params : list Z) : list Z :=
  le_bytes 4 (12 + 4 * len params)
  ++ le_bytes 2 0x0001
  ++ le_bytes 2 opcode
  ++ le_bytes 4 transactionId
  ++ flat_map (le_bytes 4) params.

(** The hex-opcode reader that the design document describes: white
    space is stripped first, then an optional [0x]/[0X] prefix, and 1 to 4
    hex digits must remain. *)
Definition parseHexOpcode_trim_first (text : JS.jsstring) : option Z :=
  let digits := JS.strip0x (JS.trim text) in
  if MtpUtils.isHex1to4 digits then Some (JS.hexValue digits) else None.

(** ** Sessions *)

Module Session.

Import UsbMtpModule.

(** A transport is bound: [sendMtpCommand] finds a connection and an OUT
    endpoint. *)
Definition connected (s : State) : bool :=
  match currentConnection s, bulkOutEndpoint s with
  | Some _, Some _ => true
  | _, _ => false
  end.





(** The receive buffer after the IN transfer. *)
Definition receiveBuffer (io : UsbIO) : list Z :=
  list_inserts 0 (take 512 (in_bytes io)) (replicate 512 0).

(** No response observed: there is no IN endpoint, or the one read timed
    out, failed or returned zero bytes. *)
Definition noResponseObserved (s : State) (io : UsbIO) : bool :=
  match bulkInEndpoint s with
  | None => true
  | Some _ => in_result io <=? 0
  end.

(** No response code parsed: nothing observed, or fewer than the 12
    header bytes read. *)
Definition noResponseParsed (s : State) (io : UsbIO) : bool :=
  match bulkInEndpoint s with
  | None => true
  | Some _ => in_result io <? 12
  end.

(** The code field of the received container, as an unsigned 16-bit
    number. *)
Definition receivedCode (io : UsbIO) : Z :=
  uint_at 2 (receiveBuffer io) 6 mod 2 ^ 16.

(** The outcome with its echo of the opcode replaced. *)
Definition echoing (opcode' : Z) (p : Promise MtpCommandResult)
  : Promise MtpCommandResult :=
  match p with
  | Resolve r =>
      Resolve (mkResult (bytesSent r) opcode' (res_transactionId r)
                        (responseCode r) (success r) (responseData r))
  | Reject code => Reject code
  end.

Definition paramList (params : option (list Z)) : list Z :=
  match params with Some l => l | None => [] end.

End Session.

(** ** Shape of a formatted opcode *)

Definition isUpperHexDigit (c : Z) : bool :=
  ((0x30 <=? c) && (c <=? 0x39)) || ((0x41 <=? c) && (c <=? 0x46)).

(** [0x] followed by exactly four uppercase hex digits that denote [n]. *)
Definition isFormatted (n : Z) (s : JS.jsstring) : bool :=
  match s with
  | [z; x; a; b; c; d] =>
      (z =? 0x30) && (x =? 0x78)
      && forallb isUpperHexDigit [a; b; c; d]
      && (JS.hexValue [a; b; c; d] =? n)
  | _ => false
  end.

(** [parseHexOpcode (formatOpcode n)] is [n], and [formatOpcode n] is well
    shaped. *)
Definition roundTrips (n : Z) : bool :=
  match MtpUtils.parseHexOpcode (MtpUtils.formatOpcode n) with
  | Some m => m =? n
  | None => false
  end
  && isFormatted n (MtpUtils.formatOpcode n).

(** The [count] integers from [start] on. *)
Fixpoint upFrom (start : Z) (count : nat) : list Z :=
  match count with
  | O => []
  | S count' => start :: upFrom (start + 1) count'
  end.

(** Every 16-bit opcode, in increasing order. *)
Definition allOpcodes : list Z := upFrom 0 (Z.to_nat 0x10000).

(** ** Octets and reachable states *)

(** Every element is an octet, as in a [Uint8Array] or on the wire. *)
Definition octets (data : list Z) : bool :=
  forallb (fun b => (0 <=? b) && (b <? 256)) data.

(** The bytes that serialise a parsed container again. *)
Definition containerOf (r : MtpUtils.MtpResponse) : list Z :=
  le_bytes 4 (MtpUtils.r_length r)
  ++ le_bytes 2 (MtpUtils.r_type r)
  ++ le_bytes 2 (MtpUtils.r_code r)
  ++ le_bytes 4 (MtpUtils.r_transactionId r)
  ++ flat_map (le_bytes 4) (MtpUtils.r_params r).

Module Reach.

Import UsbMtpModule.

(** The states the module can be in: the field initialisers, then any
    sequence of its state-changing entry points. *)
Inductive reachable : State -> Prop :=
| reach_initial : reachable initial
| reach_open s m id :
    reachable s -> reachable (openConnection s m id).1
| reach_close s :
    reachable s -> reachable (closeConnection s)
| reach_send s opcode params io :
    reachable s -> reachable (sendMtpCommand s opcode params io).1.1
| reach_raw s data io :
    reachable s -> reachable (sendRawData s data io).1.1
| reach_detached s device :
    reachable s -> reachable (onDeviceDetached s device).

Definition isBulkOut (e : UsbEndpoint) : bool :=
  (e_type e =? USB_ENDPOINT_XFER_BULK) && (e_direction e =? USB_DIR_OUT).

Definition isBulkIn (e : UsbEndpoint) : bool :=
  (e_type e =? USB_ENDPOINT_XFER_BULK) && (e_direction e =? USB_DIR_IN).

(** Every endpoint of every interface of a device. *)
Definition endpointsOf (device : UsbDevice) : list UsbEndpoint :=
  flat_map endpoints (interfaces device).

(** What an endpoint search has found so far is sound: an OUT candidate
    is a bulk OUT endpoint among [all], an IN candidate a bulk IN
    endpoint among [all]. *)
Definition goodEndpoints (all : list UsbEndpoint) (found : Endpoints) : Prop :=
  (forall o, found.1 = Some o -> isBulkOut o = true /\ In o all)
  /\ (forall i, found.2 = Some i -> isBulkIn i = true /\ In i all).

(** Device, connection, interface and OUT endpoint are all set. *)
Definition bound (s : State) : bool :=
  match currentDevice s, currentConnection s, currentInterface s,
        bulkOutEndpoint s with
  | Some _, Some _, Some _, Some _ => true
  | _, _, _, _ => false
  end.

(** Nothing is set. *)
Definition unbound (s : State) : bool :=
  match currentDevice s, currentConnection s, currentInterface s,
        bulkOutEndpoint s, bulkInEndpoint s with
  | None, None, None, None, None => true
  | _, _, _, _, _ => false
  end.

(** The invariant of the module state. *)
Definition wellFormed (s : State) : Prop :=
  (bound s = true \/ unbound s = true)
  /\ - 2 ^ 31 <= transactionId s < 2 ^ 31
  /\ (forall o, bulkOutEndpoint s = Some o -> isBulkOut o = true)
  /\ (forall i, bulkInEndpoint s = Some i -> isBulkIn i = true).

End Reach.

(** ** A concrete device *)

Module Fixture.

Import UsbMtpModule Session.

Definition outEp : UsbEndpoint := mkEndpoint USB_ENDPOINT_XFER_BULK USB_DIR_OUT 0x01.
Definition inEp : UsbEndpoint := mkEndpoint USB_ENDPOINT_XFER_BULK USB_DIR_IN 0x81.

Definition mtpIntf : UsbInterface :=
  mkInterface USB_CLASS_STILL_IMAGE [inEp; outEp].

Definition phone : UsbDevice := mkDevice 1002 [mtpIntf].

(** A manager that knows the phone, has permission for it, opens it and
    lets its interface be claimed. *)
Definition manager : UsbManager :=
  mkManager [phone] (fun _ => true) (fun _ => Some 42) (fun _ _ => true).

(** The session that [openConnection] leaves behind. *)
Definition opened : State :=
  mkState (Some phone) (Some 42) (Some mtpIntf) (Some outEp) (Some inEp) 1.

Definition openedInfo : ConnectionInfo := mkConnectionInfo 1002 6 0x01 0x81.


End Fixture.

Example build_fe01 :
  MtpUtils.buildMtpCommandPacket 0xFE01 1 [] = Ok [12;0;0;0; 1;0; 1;254; 1;0;0;0].
Proof. reflexivity. Qed.

Example build_param :
  MtpUtils.buildMtpCommandPacket 0xFE01 1 [0x12345678]
  = Ok [16;0;0;0; 1;0; 1;254; 1;0;0;0; 0x78;0x56;0x34;0x12].
Proof. reflexivity. Qed.

Example parse_ok :
  MtpUtils.parseMtpResponse [12;0;0;0; 3;0; 1;0x20; 1;0;0;0]
  = Ok (Some (MtpUtils.mkResponse 12 3 0x2001 1 [])).
Proof. reflexivity. Qed.

Example parse_short : MtpUtils.parseMtpResponse [1;2;3] = Ok None.
Proof. reflexivity. Qed.

Example parse_overclaim :
  MtpUtils.parseMtpResponse [16;0;0;0; 3;0; 1;0x20; 1;0;0;0] = Throw RangeError.
Proof. reflexivity. Qed.

Example format_examples :
  MtpUtils.formatOpcode 0 = JS.str "0x0000" /\
  MtpUtils.formatOpcode 0xFE01 = JS.str "0xFE01" /\
  MtpUtils.formatOpcode 0x1001 = JS.str "0x1001" /\
  MtpUtils.formatOpcode 1 = JS.str "0x0001".
Proof. repeat split; reflexivity. Qed.

Example parseHex_examples :
  MtpUtils.parseHexOpcode (JS.str "FE01") = Some 0xFE01 /\
  MtpUtils.parseHexOpcode (JS.str "fe01") = Some 0xFE01 /\
  MtpUtils.parseHexOpcode (JS.str "0xFE01") = Some 0xFE01 /\
  MtpUtils.parseHexOpcode (JS.str "1") = Some 1 /\
  MtpUtils.parseHexOpcode (JS.str "FF") = Some 0xFF /\
  MtpUtils.parseHexOpcode (JS.str "FFFF") = Some 0xFFFF /\
  MtpUtils.parseHexOpcode (JS.str "0000") = Some 0 /\
  MtpUtils.parseHexOpcode (JS.str "") = None /\
  MtpUtils.parseHexOpcode (JS.str "GGGG") = None /\
  MtpUtils.parseHexOpcode (JS.str "12345") = None /\
  MtpUtils.parseHexOpcode (JS.str "hello") = None /\
  MtpUtils.parseHexOpcode (JS.str " 0xFE01") = None /\
  MtpUtils.parseHexOpcode (JS.str "0x FE01") = Some 0xFE01 /\
  MtpUtils.parseHexOpcode (JS.str " FE01 ") = Some 0xFE01.
Proof. repeat split; reflexivity. Qed.

Example send_example :
  let ep_out := UsbMtpModule.mkEndpoint 2 0 1 in
  let ep_in := UsbMtpModule.mkEndpoint 2 0x80 0x81 in
  let s := UsbMtpModule.mkState None (Some 7) None (Some ep_out) (Some ep_in) 1 in
  UsbMtpModule.sendMtpCommand s 0xFE01 None
    (UsbMtpModule.mkIO 12 12 [12;0;0;0; 3;0; 1;0x20; 1;0;0;0])
  = (UsbMtpModule.set_transactionId s 2,
     UsbMtpModule.Resolve
       (UsbMtpModule.mkResult 12 0xFE01 1 0x2001 true
          (Some [12;0;0;0; 3;0; 1;0x20; 1;0;0;0])),
     [UsbMtpModule.BulkOut ep_out [12;0;0;0; 1;0; 1;254; 1;0;0;0] 12 3000;
      UsbMtpModule.BulkIn ep_in 512 3000]).
Proof. vm_compute. reflexivity. Qed.

(** ** Little-endian encoding *)

Section LittleEndian.

Lemma length_le_bytes n v : length (le_bytes n v) = n.
Proof. revert v; induction n as [|n IH]; intros v; simpl; [done|by rewrite IH]. Qed.

Lemma le_value_le_bytes n v : le_value (le_bytes n v) = v mod 256 ^ Z.of_nat n.
Proof.
  revert v; induction n as [|n IH]; intros v.
  - simpl. by rewrite Z.mod_1_r.
  - cbn [le_bytes le_value]. rewrite IH.
    rewrite Nat2Z.inj_succ, Z.pow_succ_r by lia.
    rewrite Z.rem_mul_r by lia. reflexivity.
Qed.

(** Only the low [n] bytes of [v] are stored. *)
Lemma le_bytes_mod n v : le_bytes n (v mod 256 ^ Z.of_nat n) = le_bytes n v.
Proof.
  revert v; induction n as [|n IH]; intros v; [done|].
  cbn [le_bytes]. rewrite Nat2Z.inj_succ, Z.pow_succ_r by lia.
  rewrite Z.rem_mul_r by lia.
  set (hi := (v / 256) mod 256 ^ Z.of_nat n).
  rewrite (Z.mul_comm 256 hi).
  f_equal.
  - rewrite Z.mod_add by lia. apply Z.mod_mod; lia.
  - rewrite <- (IH (v / 256)). f_equal.
    rewrite Z.div_add by lia.
    rewrite (Z.div_small (v mod 256)) by (apply Z.mod_pos_bound; lia).
    reflexivity.
Qed.

Lemma le_value_u16 v : 0 <= v <= 0xFFFF -> le_value (le_bytes 2 v) = v.
Proof. intros H. rewrite le_value_le_bytes. apply Z.mod_small. simpl. lia. Qed.

Lemma le_value_u32 v : 0 <= v <= 0xFFFFFFFF -> le_value (le_bytes 4 v) = v.
Proof. intros H. rewrite le_value_le_bytes. apply Z.mod_small. simpl. lia. Qed.

Lemma len_app (a b : list Z) : len (a ++ b) = len a + len b.
Proof. unfold len. rewrite length_app. lia. Qed.

Lemma len_le_bytes n v : len (le_bytes n v) = Z.of_nat n.
Proof. unfold len. by rewrite length_le_bytes. Qed.

Lemma len_nonneg (a : list Z) : 0 <= len a.
Proof. unfold len. lia. Qed.

(** Reading [width] bytes that sit right after [pre]. *)
Lemma uint_at_app width (pre bs post : list Z) :
  length bs = width ->
  uint_at width (pre ++ bs ++ post) (len pre) = le_value bs.
Proof.
  intros Hw. unfold uint_at, len. rewrite Nat2Z.id.
  rewrite drop_app_length. by rewrite take_app_length'.
Qed.

Lemma in_bounds_app (pre bs post : list Z) width :
  length bs = width -> in_bounds (pre ++ bs ++ post) (len pre) width = true.
Proof.
  intros Hw. unfold in_bounds. rewrite !len_app.
  pose proof (len_nonneg pre). pose proof (len_nonneg post).
  unfold len in *. rewrite Hw.
  apply andb_true_intro; split; [apply Z.leb_le|apply Z.leb_le]; lia.
Qed.

(** Overwriting the [width] bytes that sit right after [pre]. *)
Lemma list_inserts_splice (pre mid post bs : list Z) :
  length bs = length mid ->
  list_inserts (length pre) bs (pre ++ mid ++ post) = pre ++ bs ++ post.
Proof.
  intros Hlen.
  replace (length pre) with (length pre + 0)%nat by lia.
  rewrite list_inserts_app_r. f_equal. by apply list_inserts_0_r.
Qed.

End LittleEndian.

(** ** [DataView] accesses that are in range *)

Section DataViewFacts.

Import DataView.

Lemma getUint_app width (pre bs post : list Z) :
  length bs = width ->
  getUint width (pre ++ bs ++ post) (len pre) = Ok (le_value bs).
Proof.
  intros Hw. unfold getUint. rewrite in_bounds_app by done.
  f_equal. by apply uint_at_app.
Qed.

Lemma setUint_app width (pre mid post : list Z) v :
  length mid = width ->
  setUint width (pre ++ mid ++ post) (len pre) v
  = Ok (pre ++ le_bytes width v ++ post).
Proof.
  intros Hw. unfold setUint. rewrite in_bounds_app by done.
  f_equal. unfold len. rewrite Nat2Z.id.
  apply list_inserts_splice. by rewrite length_le_bytes.
Qed.

Lemma getUint_in_bounds width view off :
  in_bounds view off width = true ->
  getUint width view off = Ok (uint_at width view off).
Proof. intros H. unfold getUint. by rewrite H. Qed.

Lemma getUint_out_of_bounds width view off :
  in_bounds view off width = false ->
  getUint width view off = Throw RangeError.
Proof. intros H. unfold getUint. by rewrite H. Qed.

End DataViewFacts.

(** ** The command builders *)

Section Builders.

Import DataView.

Lemma setUint_at width (pre mid post : list Z) off v :
  len pre = off -> length mid = width ->
  setUint width (pre ++ mid ++ post) off v
  = Ok (pre ++ le_bytes width v ++ post).
Proof. intros <- Hw. by apply setUint_app. Qed.

Lemma getUint_at width (pre bs post : list Z) off :
  len pre = off -> length bs = width ->
  getUint width (pre ++ bs ++ post) off = Ok (le_value bs).
Proof. intros <- Hw. by apply getUint_app. Qed.

Lemma replicate_params (n : nat) :
  replicate (4 * S n) 0 = replicate 4 0 ++ replicate (4 * n) 0.
Proof. rewrite <- replicate_add. f_equal. lia. Qed.

Lemma len_commandContainer opcode tx params :
  len (commandContainer opcode tx params) = 12 + 4 * len params.
Proof.
  unfold commandContainer. rewrite !len_app, !len_le_bytes.
  assert (len (flat_map (le_bytes 4) params) = 4 * len params) as ->.
  { induction params as [|p ps IH]; [done|].
    cbn [flat_map]. rewrite len_app, len_le_bytes, IH. unfold len. simpl length. lia. }
  lia.
Qed.

(** The [forEach] of the TypeScript builder fills the zeroed tail of the
    buffer with the parameters. *)
Lemma forEach_fills (params pre : list Z) (index : Z) :
  len pre = 12 + index * 4 ->
  MtpUtils.forEach
    (fun param index view => setUint32 view (12 + index * 4) param)
    params index (pre ++ replicate (4 * length params) 0)
  = Ok (pre ++ flat_map (le_bytes 4) params).
Proof.
  revert pre index. induction params as [|p ps IH]; intros pre index Hpre.
  - simpl. by rewrite !app_nil_r.
  - cbn [MtpUtils.forEach length flat_map]. rewrite replicate_params.
    unfold setUint32 at 1. rewrite (setUint_at 4 pre) by done.
    cbn [rbind]. rewrite !(assoc_L (++) pre).
    apply IH. rewrite len_app, len_le_bytes. lia.
Qed.

Lemma zeroed_buffer (params : list Z) :
  replicate (Z.to_nat (12 + len params * 4)) 0
  = [] ++ replicate 4 0 ++ replicate 2 0 ++ replicate 2 0 ++ replicate 4 0
       ++ replicate (4 * length params) 0.
Proof.
  unfold len. rewrite app_nil_l, <- !replicate_add. f_equal. lia.
Qed.

(** The TypeScript builder never throws and produces the container. *)
Lemma ts_build_container opcode tx params :
  MtpUtils.buildMtpCommandPacket opcode tx params
  = Ok (commandContainer opcode tx params).
Proof.
  unfold MtpUtils.buildMtpCommandPacket, commandContainer.
  cbv zeta. rewrite zeroed_buffer.
  unfold setUint32 at 1. rewrite (setUint_at 4 []) by done. cbn [rbind app].
  set (f1 := le_bytes 4 _).
  unfold setUint16 at 1. rewrite (setUint_at 2 f1) by done. cbn [rbind].
  set (f2 := le_bytes 2 _).
  unfold setUint16 at 1.
  rewrite (assoc_L (++) f1 f2), (setUint_at 2 (f1 ++ f2)) by done. cbn [rbind].
  set (f3 := le_bytes 2 _).
  unfold setUint32 at 1.
  rewrite (assoc_L (++) (f1 ++ f2) f3), (setUint_at 4 ((f1 ++ f2) ++ f3)) by done.
  cbn [rbind].
  set (f4 := le_bytes 4 _).
  rewrite (assoc_L (++) ((f1 ++ f2) ++ f3) f4).
  rewrite forEach_fills by done.
  subst f1. rewrite <- !(assoc_L (++)). do 2 f_equal. f_equal. unfold len. lia.
Qed.

(** *** The Kotlin builder *)

Import UsbMtpModule.

Lemma put_at width (pre mid post : list Z) pos v :
  len pre = pos -> length mid = width ->
  put width (mkBuffer (pre ++ mid ++ post) pos) v
  = Ok (mkBuffer (pre ++ le_bytes width v ++ post) (pos + Z.of_nat width)).
Proof.
  intros <- Hw. unfold put. cbn [hb position].
  rewrite in_bounds_app by done.
  do 2 f_equal. unfold len. rewrite Nat2Z.id.
  apply list_inserts_splice. by rewrite length_le_bytes.
Qed.

Lemma putParams_fills (params pre : list Z) :
  putParams (mkBuffer (pre ++ replicate (4 * length params) 0) (len pre)) params
  = Ok (mkBuffer (pre ++ flat_map (le_bytes 4) params)
                 (len pre + 4 * len params)).
Proof.
  revert pre. induction params as [|p ps IH]; intros pre.
  - simpl. rewrite !app_nil_r. do 2 f_equal. unfold len. simpl. lia.
  - cbn [putParams length flat_map]. rewrite replicate_params.
    unfold putInt. rewrite (put_at 4 pre) by done. cbn [rbind].
    rewrite !(assoc_L (++) pre).
    replace (len pre + Z.of_nat 4) with (len (pre ++ le_bytes 4 p))
      by (rewrite len_app, len_le_bytes; lia).
    rewrite IH. do 2 f_equal.
    rewrite len_app, len_le_bytes. unfold len. simpl length. lia.
Qed.

Lemma le_bytes2_int16 v : le_bytes 2 (int16 v) = le_bytes 2 v.
Proof.
  rewrite <- (le_bytes_mod 2 (int16 v)), <- (le_bytes_mod 2 v). f_equal.
  unfold int16. change (256 ^ Z.of_nat 2) with (2 ^ 16).
  rewrite Zminus_mod, Zmod_mod, <- Zminus_mod.
  f_equal. lia.
Qed.

(** The Kotlin builder never throws and produces the same container. *)
Lemma kt_build_container opcode tx params :
  UsbMtpModule.buildMtpCommandPacket opcode tx params
  = Ok (commandContainer opcode tx params).
Proof.
  unfold UsbMtpModule.buildMtpCommandPacket, commandContainer, allocate.
  cbv zeta. rewrite zeroed_buffer.
  unfold putInt at 1. rewrite (put_at 4 []) by done. cbn [rbind app].
  set (f1 := le_bytes 4 _).
  unfold putShort at 1. rewrite (put_at 2 f1) by done. cbn [rbind].
  set (f2 := le_bytes 2 _).
  unfold putShort at 1.
  rewrite (assoc_L (++) f1 f2), (put_at 2 (f1 ++ f2)) by done. cbn [rbind].
  rewrite le_bytes2_int16. set (f3 := le_bytes 2 _).
  unfold putInt at 1.
  rewrite (assoc_L (++) (f1 ++ f2) f3), (put_at 4 ((f1 ++ f2) ++ f3)) by done.
  cbn [rbind].
  set (f4 := le_bytes 4 _).
  rewrite (assoc_L (++) ((f1 ++ f2) ++ f3) f4).
  change (0 + Z.of_nat 4 + Z.of_nat 2 + Z.of_nat 2 + Z.of_nat 4)
    with (len (((f1 ++ f2) ++ f3) ++ f4)).
  rewrite putParams_fills. cbn [rbind hb].
  subst f1. rewrite <- !(assoc_L (++)). do 2 f_equal. f_equal. unfold len. lia.
Qed.

(** Both builders put the same bytes on the wire. *)
Lemma builders_agree opcode tx params :
  UsbMtpModule.buildMtpCommandPacket opcode tx params
  = MtpUtils.buildMtpCommandPacket opcode tx params.
Proof. by rewrite kt_build_container, ts_build_container. Qed.

End Builders.

(** ** The response parser *)

Section Parser.

Import DataView MtpUtils.

Lemma in_bounds_iff view off width :
  in_bounds view off width = true <-> 0 <= off /\ off + Z.of_nat width <= len view.
Proof.
  unfold in_bounds. rewrite andb_true_iff, !Z.leb_le. reflexivity.
Qed.

(** While the claimed parameters fit, the loop returns them in order. *)
Lemma readParams_reads view (remaining j : nat) acc :
  12 + 4 * Z.of_nat (j + remaining) <= len view ->
  readParams view remaining (Z.of_nat j) acc
  = Ok (acc ++ map (fun k => uint_at 4 view (12 + 4 * Z.of_nat k))
                   (seq j remaining)).
Proof.
  revert j acc. induction remaining as [|r IH]; intros j acc Hfit.
  - simpl. by rewrite app_nil_r.
  - cbn [readParams seq map]. unfold getUint32.
    rewrite getUint_in_bounds by (apply in_bounds_iff; lia).
    cbn [rbind].
    replace (Z.of_nat j + 1) with (Z.of_nat (S j)) by lia.
    rewrite IH by lia.
    rewrite <- (assoc_L (++)). cbn [app].
    by rewrite (Z.mul_comm (Z.of_nat j) 4).
Qed.

(** As soon as a claimed parameter lies past the end, the read of the
    first such parameter throws. *)
Lemma readParams_throws view (remaining j : nat) acc :
  12 + 4 * Z.of_nat j <= len view ->
  len view < 12 + 4 * Z.of_nat (j + remaining) ->
  readParams view remaining (Z.of_nat j) acc = Throw RangeError.
Proof.
  revert j acc. induction remaining as [|r IH]; intros j acc Hin Hover.
  - exfalso. rewrite Nat.add_0_r in Hover. lia.
  - cbn [readParams]. unfold getUint32.
    destruct (in_bounds view (12 + Z.of_nat j * 4) 4) eqn:Hb.
    + rewrite getUint_in_bounds by done. cbn [rbind].
      apply in_bounds_iff in Hb.
      replace (Z.of_nat j + 1) with (Z.of_nat (S j)) by lia.
      apply IH; lia.
    + by rewrite getUint_out_of_bounds.
Qed.

(** The four header reads succeed on any buffer of 12 bytes or more. *)
Lemma parse_header data :
  12 <= len data ->
  parseMtpResponse data
  = (params <- readParams data (Z.to_nat ((uint_at 4 data 0 - 12) / 4)) 0 [] ;;
     Ok (Some (mkResponse (uint_at 4 data 0) (uint_at 2 data 4)
                          (uint_at 2 data 6) (uint_at 4 data 8) params))).
Proof.
  intros Hlen. unfold parseMtpResponse.
  destruct (len data <? 12) eqn:Hshort; [apply Z.ltb_lt in Hshort; lia|].
  unfold getUint32, getUint16.
  rewrite !getUint_in_bounds by (apply in_bounds_iff; simpl; lia).
  reflexivity.
Qed.

Lemma availableParams_spec data (n : Z) :
  12 <= len data ->
  (n <= availableParams data <-> 12 + 4 * n <= len data).
Proof.
  intros Hlen. unfold availableParams. split; intros H.
  - pose proof (Z.mul_div_le (len data - 12) 4). lia.
  - apply Z.div_le_lower_bound; lia.
Qed.

Lemma claimedParams_nat data :
  Z.to_nat ((uint_at 4 data 0 - 12) / 4) = Z.to_nat (claimedParams data).
Proof. unfold claimedParams. lia. Qed.

End Parser.

(** ** The session *)

Section SessionFacts.

Import UsbMtpModule Session.


Lemma int32_small a : - 2 ^ 31 <= a < 2 ^ 31 -> int32 a = a.
Proof. intros H. unfold int32. rewrite Z.mod_small; lia. Qed.

Lemma int32_range a : - 2 ^ 31 <= int32 a < 2 ^ 31.
Proof.
  unfold int32. pose proof (Z.mod_pos_bound (a + 2 ^ 31) (2 ^ 32)). lia.
Qed.

Lemma int32_succ_neq a : int32 (a + 1) <> int32 a.
Proof.
  unfold int32. intros H.
  assert ((a + 1 + 2 ^ 31) mod 2 ^ 32 = (a + 2 ^ 31) mod 2 ^ 32) as E by lia.
  pose proof (Z.div_mod (a + 1 + 2 ^ 31) (2 ^ 32)).
  pose proof (Z.div_mod (a + 2 ^ 31) (2 ^ 32)).
  lia.
Qed.

Lemma land_int16 x : Z.land (int16 x) 0xFFFF = x mod 2 ^ 16.
Proof.
  change 0xFFFF with (Z.ones 16). rewrite Z.land_ones by lia.
  unfold int16. rewrite Zminus_mod, Zmod_mod, <- Zminus_mod. f_equal. lia.
Qed.

Lemma connected_inv s :
  connected s = true ->
  exists connection outEndpoint,
    currentConnection s = Some connection /\ bulkOutEndpoint s = Some outEndpoint.
Proof.
  unfold connected. destruct (currentConnection s), (bulkOutEndpoint s); try done.
  eauto.
Qed.

Lemma length_receiveBuffer io : length (receiveBuffer io) = 512%nat.
Proof. unfold receiveBuffer. by rewrite length_inserts, length_replicate. Qed.

(** The parse of the receive buffer never runs past its 512 bytes. *)
Lemma readResponse_ok inEndpoint io :
  readResponse inEndpoint io
  = Ok (if in_result io >? 0
        then (if in_result io >=? 12 then receivedCode io else -1,
              Some (copyOf (receiveBuffer io) (in_result io)))
        else (-1, None)).
Proof.
  unfold readResponse. fold (receiveBuffer io).
  destruct (in_result io >? 0); [|done].
  destruct (in_result io >=? 12); [|done].
  assert (forall pos w, 0 <= pos -> pos + Z.of_nat w <= 512 ->
            in_bounds (receiveBuffer io) pos w = true) as Hb.
  { intros pos w ? ?. unfold in_bounds, len. rewrite length_receiveBuffer.
    apply andb_true_intro; split; apply Z.leb_le; lia. }
  unfold getInt, getShort, get, wrap. cbn [hb position rbind fst snd].
  rewrite Hb by (simpl; lia). cbn [hb position rbind fst snd].
  rewrite Hb by (simpl; lia). cbn [hb position rbind fst snd].
  rewrite Hb by (simpl; lia). cbn [hb position rbind fst snd].
  rewrite land_int16. reflexivity.
Qed.

(** [sendMtpCommand] on a bound transport, case by case. *)
Lemma sendMtpCommand_connected s op params io connection outEndpoint :
  currentConnection s = Some connection ->
  bulkOutEndpoint s = Some outEndpoint ->
  let s' := set_transactionId s (int32 (transactionId s + 1)) in
  let packet := commandContainer op (transactionId s) (paramList params) in
  let sent := [BulkOut outEndpoint packet (len packet) BULK_TRANSFER_TIMEOUT_MS] in
  let finish code data :=
    Resolve (mkResult (out_result io) op (int32 (transactionId s' - 1))
                      code (out_result io >? 0) data) in
  sendMtpCommand s op params io
  = if out_result io <? 0 then (s', Reject "TRANSFER_FAILED", sent)
    else match bulkInEndpoint s with
         | None => (s', finish (-1) None, sent)
         | Some inEndpoint =>
             (s',
              if in_result io >? 0
              then finish (if in_result io >=? 12 then receivedCode io else -1)
                          (Some (copyOf (receiveBuffer io) (in_result io)))
              else finish (-1) None,
              sent ++ [BulkIn inEndpoint 512 BULK_TRANSFER_TIMEOUT_MS])
         end.
Proof.
  intros Hc Ho. cbv zeta. unfold sendMtpCommand. rewrite Hc, Ho.
  fold (paramList params). rewrite kt_build_container.
  destruct (out_result io <? 0); [done|].
  cbn [set_transactionId bulkInEndpoint].
  destruct (bulkInEndpoint s) as [inEndpoint|]; [|done].
  rewrite readResponse_ok.
  destruct (in_result io >? 0); reflexivity.
Qed.

Lemma sendMtpCommand_not_connected s op params io :
  connected s = false ->
  sendMtpCommand s op params io = (s, Reject "NOT_CONNECTED", []).
Proof.
  unfold connected, sendMtpCommand.
  destruct (currentConnection s), (bulkOutEndpoint s); done.
Qed.

(** The state after a send: the counter moves once, whatever the bus
    answered; nothing else changes. *)
Lemma sendMtpCommand_state s op params io :
  (sendMtpCommand s op params io).1.1
  = if connected s then set_transactionId s (int32 (transactionId s + 1)) else s.
Proof.
  destruct (connected s) eqn:Hc.
  - destruct (connected_inv s Hc) as (c & o & Hcur & Hout).
    rewrite (sendMtpCommand_connected s op params io c o) by done.
    destruct (out_result io <? 0); [done|].
    destruct (bulkInEndpoint s); done.
  - by rewrite sendMtpCommand_not_connected.
Qed.






End SessionFacts.

(** ** Hex opcodes *)

Section HexOpcodes.

Import JS MtpUtils.

Lemma isHexDigit_bounds c :
  isHexDigit c = true ->
  0x30 <= c <= 0x39 \/ 0x41 <= c <= 0x46 \/ 0x61 <= c <= 0x66.
Proof.
  unfold isHexDigit. rewrite !orb_true_iff, !andb_true_iff, !Z.leb_le. tauto.
Qed.

Lemma hexDigit_not_space c : isHexDigit c = true -> isWhiteSpace c = false.
Proof.
  intros H%isHexDigit_bounds. unfold isWhiteSpace.
  repeat (apply orb_false_intro);
    try (apply Z.eqb_neq; lia);
    apply andb_false_iff; rewrite !Z.leb_gt; lia.
Qed.

Lemma hexDigitValue_range c : isHexDigit c = true -> 0 <= hexDigitValue c <= 15.
Proof.
  intros H%isHexDigit_bounds. unfold hexDigitValue.
  destruct (Z.leb_spec c 0x39), (Z.leb_spec c 0x46); lia.
Qed.

Lemma hexPrefix_all s : forallb isHexDigit s = true -> hexPrefix s = s.
Proof.
  induction s as [|c s IH]; [done|]. simpl.
  intros [Hc Hs]%andb_true_iff. rewrite Hc. f_equal. by apply IH.
Qed.

Lemma hexValue_snoc s c : hexValue (s ++ [c]) = hexValue s * 16 + hexDigitValue c.
Proof. unfold hexValue. by rewrite foldl_app. Qed.

(** A run of [k] hex digits denotes a number below [16^k]. *)
Lemma hexValue_range s :
  forallb isHexDigit s = true -> 0 <= hexValue s < 16 ^ Z.of_nat (length s).
Proof.
  induction s as [|c s IH] using rev_ind; [unfold hexValue; simpl; lia|].
  rewrite forallb_app, andb_true_iff. simpl. rewrite andb_true_r.
  intros [Hs Hc]. specialize (IH Hs).
  pose proof (hexDigitValue_range c Hc).
  rewrite hexValue_snoc, length_app. simpl length.
  replace (Z.of_nat (length s + 1)) with (Z.succ (Z.of_nat (length s))) by lia.
  rewrite Z.pow_succ_r by lia. lia.
Qed.

(** On 1 to 4 hex digits [parseInt] returns their value, and the value
    is a 16-bit number: the range test after it can never fail. *)
Lemma parseInt16_digits s :
  isHex1to4 s = true ->
  parseInt16 s = Some (hexValue s) /\ 0 <= hexValue s <= 0xFFFF.
Proof.
  unfold isHex1to4. rewrite !andb_true_iff, !Nat.leb_le.
  intros [[Hall Hmin] Hmax].
  pose proof (hexValue_range s Hall) as Hrange.
  assert (16 ^ Z.of_nat (length s) <= 16 ^ 4) by (apply Z.pow_le_mono_r; lia).
  split; [|lia].
  destruct s as [|c s]; [simpl in Hmin; lia|].
  pose proof Hall as Hall'. simpl in Hall'.
  apply andb_true_iff in Hall' as [Hc Hs].
  unfold parseInt16. cbn [trimStart]. rewrite (hexDigit_not_space c Hc).
  pose proof (isHexDigit_bounds c Hc) as Hb.
  destruct (Z.eqb_spec c 0x2D); [lia|]. destruct (Z.eqb_spec c 0x2B); [lia|].
  cbn [orb].
  assert (strip0x (c :: s) = c :: s) as ->.
  { destruct s as [|c1 s]; [done|]. unfold strip0x.
    simpl in Hs. apply andb_true_iff in Hs as [Hc1%isHexDigit_bounds _].
    destruct (Z.eqb_spec c1 0x78); [lia|]. destruct (Z.eqb_spec c1 0x58); [lia|].
    by rewrite andb_false_r. }
  rewrite hexPrefix_all by done. f_equal. lia.
Qed.

(** What the code accepts: the prefix is removed from the raw input,
    white space is stripped afterwards. *)
Lemma parseHexOpcode_accepts hex :
  parseHexOpcode hex
  = if isHex1to4 (trim (strip0x hex))
    then Some (hexValue (trim (strip0x hex)))
    else None.
Proof.
  unfold parseHexOpcode. cbv zeta.
  destruct (isHex1to4 (trim (strip0x hex))) eqn:Hhex; [|done].
  destruct (parseInt16_digits _ Hhex) as [-> Hrange]. cbn [negb].
  destruct (Z.ltb_spec (hexValue (trim (strip0x hex))) 0); [lia|].
  destruct (Z.gtb_spec (hexValue (trim (strip0x hex))) 0xFFFF); [lia|].
  reflexivity.
Qed.

Lemma In_upFrom n start count :
  start <= n < start + Z.of_nat count -> In n (upFrom start count).
Proof.
  revert start. induction count as [|count IH]; intros start Hn; [lia|].
  cbn [upFrom In]. destruct (Z.eq_dec start n); [by left|].
  right. apply IH. lia.
Qed.

Lemma roundTrips_allOpcodes : forallb roundTrips allOpcodes = true.
Proof. vm_cast_no_check (eq_refl true). Qed.

Lemma roundTrips_16bit n : 0 <= n <= 0xFFFF -> roundTrips n = true.
Proof.
  intros Hn.
  apply (proj1 (forallb_forall roundTrips allOpcodes) roundTrips_allOpcodes).
  unfold allOpcodes. apply In_upFrom. lia.
Qed.

End HexOpcodes.

(** ** Properties of the packet codec *)

Section CodecProperties.

Import DataView MtpUtils.

Lemma uint_at_off width (pre bs post : list Z) off :
  len pre = off -> length bs = width ->
  uint_at width (pre ++ bs ++ post) off = le_value bs.
Proof. intros <- Hw. by apply uint_at_app. Qed.

(** Reading back the parameters of a built container. *)
Lemma readParams_container (params pre : list Z) (j : nat) acc :
  len pre = 12 + 4 * Z.of_nat j ->
  readParams (pre ++ flat_map (le_bytes 4) params) (length params) (Z.of_nat j) acc
  = Ok (acc ++ map (fun p => p mod 2 ^ 32) params).
Proof.
  revert pre j acc. induction params as [|p ps IH]; intros pre j acc Hpre.
  - simpl. by rewrite app_nil_r.
  - cbn [readParams length flat_map map]. unfold getUint32.
    rewrite (getUint_at 4 pre) by (done || lia). cbn [rbind].
    rewrite le_value_le_bytes. change (256 ^ Z.of_nat 4) with (2 ^ 32).
    rewrite (assoc_L (++) pre).
    replace (Z.of_nat j + 1) with (Z.of_nat (S j)) by lia.
    rewrite IH by (rewrite len_app, len_le_bytes; lia).
    by rewrite <- (assoc_L (++) acc).
Qed.

(** The response-shaped reader applied to a command container. *)
Lemma parse_container opcode tx params :
  0 <= opcode <= 0xFFFF -> 0 <= tx <= 0xFFFFFFFF -> (length params <= 5)%nat ->
  parseMtpResponse (commandContainer opcode tx params)
  = Ok (Some (mkResponse (12 + 4 * len params) COMMAND opcode tx
                         (map (fun p => p mod 2 ^ 32) params))).
Proof.
  intros Hop Htx Hn.
  assert (0 <= len params <= 5) as Hlen by (unfold len; lia).
  rewrite parse_header by (rewrite len_commandContainer; lia).
  unfold commandContainer.
  set (f1 := le_bytes 4 _). set (f2 := le_bytes 2 1).
  set (f3 := le_bytes 2 opcode). set (f4 := le_bytes 4 tx).
  set (ps := flat_map _ params).
  assert (uint_at 4 (f1 ++ f2 ++ f3 ++ f4 ++ ps) 0 = 12 + 4 * len params) as ->.
  { transitivity (le_value f1); [|apply le_value_u32; lia].
    exact (uint_at_off 4 [] f1 (f2 ++ f3 ++ f4 ++ ps) 0 eq_refl eq_refl). }
  assert (uint_at 2 (f1 ++ f2 ++ f3 ++ f4 ++ ps) 4 = COMMAND) as ->.
  { rewrite (uint_at_off 2 f1 f2 _ 4) by done. reflexivity. }
  assert (uint_at 2 (f1 ++ f2 ++ f3 ++ f4 ++ ps) 6 = opcode) as ->.
  { rewrite (assoc_L (++) f1 f2), (uint_at_off 2 (f1 ++ f2) f3 _ 6) by done.
    by apply le_value_u16. }
  assert (uint_at 4 (f1 ++ f2 ++ f3 ++ f4 ++ ps) 8 = tx) as ->.
  { rewrite (assoc_L (++) f1 f2), (assoc_L (++) (f1 ++ f2) f3).
    rewrite (uint_at_off 4 ((f1 ++ f2) ++ f3) f4 ps 8) by done.
    by apply le_value_u32. }
  replace (Z.to_nat ((12 + 4 * len params - 12) / 4)) with (length params)
    by (replace (12 + 4 * len params - 12) with (len params * 4) by lia;
        rewrite Z.div_mul by lia; unfold len; lia).
  rewrite !(assoc_L (++) _ _ ps).
  rewrite (readParams_container params _ 0 []) by done.
  reflexivity.
Qed.

(** C3. For every opcode in [0,0xFFFF], transaction ID in [0,2^32-1] and
    list of at most five parameters, [buildMtpCommandPacket] returns
    exactly [12 + 4*len(parameters)] bytes laid out little-endian as
    [len:u32][type:u16=0x0001][opcode:u16][txId:u32][params:u32...]
    (the container of [commandContainer]); the response-shaped reader
    recovers opcode and transaction ID from them; and
    [buildMtpCommandPacket(0xFE01, 1, [])] is the twelve bytes
    [0C 00 00 00 01 00 01 FE 01 00 00 00]. *)
Theorem buildMtpCommandPacket_layout opcode tx params :
  0 <= opcode <= 0xFFFF -> 0 <= tx <= 0xFFFFFFFF -> (length params <= 5)%nat ->
  buildMtpCommandPacket opcode tx params = Ok (commandContainer opcode tx params)
  /\ len (commandContainer opcode tx params) = 12 + 4 * len params
  /\ (exists r, parseMtpResponse (commandContainer opcode tx params) = Ok (Some r)
                /\ r_code r = opcode /\ r_transactionId r = tx
                /\ r_length r = 12 + 4 * len params /\ r_type r = COMMAND
                /\ r_params r = map (fun p => p mod 2 ^ 32) params)
  /\ buildMtpCommandPacket 0xFE01 1 []
     = Ok [12; 0; 0; 0;  0x01; 0x00;  0x01; 0xFE;  0x01; 0x00; 0x00; 0x00].
Proof.
  intros Hop Htx Hn. split; [apply ts_build_container|].
  split; [apply len_commandContainer|]. split; [|reflexivity].
  eexists. split; [by apply parse_container|]. cbn. done.
Qed.

Lemma buildMtpCommandPacket_layout_witness :
  (0 <= 0xFE01 <= 0xFFFF /\ 0 <= 1 <= 0xFFFFFFFF /\ Nat.le (length [0x12345678]) 5)
  /\ buildMtpCommandPacket 0xFE01 1 [0x12345678]
     = Ok (commandContainer 0xFE01 1 [0x12345678]).
Proof.
  assert (0 <= 0xFE01 <= 0xFFFF) as H1 by lia.
  assert (0 <= 1 <= 0xFFFFFFFF) as H2 by lia.
  assert (Nat.le (length [0x12345678]) 5) as H3 by (simpl; lia).
  split; [done|].
  exact (proj1 (buildMtpCommandPacket_layout 0xFE01 1 [0x12345678] H1 H2 H3)).
Defined.

(** C8. A buffer of fewer than 12 bytes parses to "no container"
    ([null]), whatever its bytes are; nothing is thrown. *)
Theorem parseMtpResponse_short data :
  len data < 12 -> parseMtpResponse data = Ok None.
Proof.
  intros Hlen. unfold parseMtpResponse.
  by destruct (Z.ltb_spec (len data) 12); [|lia].
Qed.

Lemma parseMtpResponse_short_witness :
  len [1; 2; 3] < 12 /\ parseMtpResponse [1; 2; 3] = Ok None.
Proof.
  assert (len [1; 2; 3] < 12) as H by (unfold len; simpl; lia).
  split; [exact H|]. exact (parseMtpResponse_short [1; 2; 3] H).
Defined.

(** C1 (amended). On a buffer of 12 bytes or more, [parseMtpResponse]
    reads [floor((totalLength - 12) / 4)] parameters and does not clamp
    that count.  When the claimed parameters all lie inside the buffer
    the result is the one of the clamping reader; every parameter
    returned comes from inside the buffer.  When the length field claims
    more parameters than the buffer holds, nothing is truncated: the
    bounds-checked read of the first missing parameter throws
    [RangeError] and no container is returned. *)
Theorem parseMtpResponse_claimed_params data :
  12 <= len data ->
  (claimedParams data <= availableParams data ->
     parseMtpResponse data = Ok (parseResponse_clamped data))
  /\ (availableParams data < claimedParams data ->
        parseMtpResponse data = Throw RangeError)
  /\ (forall r, parseMtpResponse data = Ok (Some r) ->
        len (r_params r) = claimedParams data
        /\ 12 + 4 * len (r_params r) <= len data).
Proof.
  intros Hlen.
  assert (0 <= claimedParams data) as Hc0 by (unfold claimedParams; lia).
  assert (claimedParams data <= availableParams data ->
          parseMtpResponse data = Ok (parseResponse_clamped data)) as Hfit.
  { intros Hfit. pose proof (proj1 (availableParams_spec data _ Hlen) Hfit).
    rewrite parse_header, claimedParams_nat by done.
    rewrite (readParams_reads data _ 0 []) by lia. cbn [rbind app].
    unfold parseResponse_clamped.
    destruct (Z.ltb_spec (len data) 12); [lia|].
    rewrite Z.min_l by done. reflexivity. }
  assert (availableParams data < claimedParams data ->
          parseMtpResponse data = Throw RangeError) as Hover.
  { intros Hover.
    assert (len data < 12 + 4 * claimedParams data).
    { destruct (Z.le_gt_cases (12 + 4 * claimedParams data) (len data)) as [H|H];
        [|done].
      apply (availableParams_spec data _ Hlen) in H. lia. }
    rewrite parse_header, claimedParams_nat by done.
    rewrite (readParams_throws data _ 0 []) by lia. reflexivity. }
  split; [exact Hfit|]. split; [exact Hover|].
  intros r Hr.
  destruct (Z.le_gt_cases (claimedParams data) (availableParams data)) as [H|H].
  - rewrite (Hfit H) in Hr. unfold parseResponse_clamped in Hr.
    destruct (Z.ltb_spec (len data) 12); [lia|].
    injection Hr as <-. cbn [r_params].
    rewrite Z.min_l by done. unfold len.
    rewrite length_map, length_seq.
    apply (availableParams_spec data _ Hlen) in H. unfold len in H. lia.
  - rewrite (Hover H) in Hr. discriminate.
Qed.

Lemma parseMtpResponse_claimed_params_witness :
  (12 <= len [16;0;0;0; 3;0; 1;0x20; 1;0;0;0; 0x78;0x56;0x34;0x12]
   /\ claimedParams [16;0;0;0; 3;0; 1;0x20; 1;0;0;0; 0x78;0x56;0x34;0x12]
      <= availableParams [16;0;0;0; 3;0; 1;0x20; 1;0;0;0; 0x78;0x56;0x34;0x12])
  /\ parseMtpResponse [16;0;0;0; 3;0; 1;0x20; 1;0;0;0; 0x78;0x56;0x34;0x12]
     = Ok (parseResponse_clamped
             [16;0;0;0; 3;0; 1;0x20; 1;0;0;0; 0x78;0x56;0x34;0x12]).
Proof.
  assert (12 <= len [16;0;0;0; 3;0; 1;0x20; 1;0;0;0; 0x78;0x56;0x34;0x12]) as H
    by (unfold len; simpl; lia).
  assert (claimedParams [16;0;0;0; 3;0; 1;0x20; 1;0;0;0; 0x78;0x56;0x34;0x12]
          <= availableParams
               [16;0;0;0; 3;0; 1;0x20; 1;0;0;0; 0x78;0x56;0x34;0x12]) as Hfit
    by (vm_compute; discriminate).
  split; [done|].
  exact (proj1 (parseMtpResponse_claimed_params _ H) Hfit).
Defined.

(** C1, as stated, fails: a 12-byte buffer whose length field says 16
    claims one parameter that is not there.  The clamping reader would
    return the header with no parameters; [parseMtpResponse] throws. *)
Lemma parseMtpResponse_overclaim_throws :
  parseResponse_clamped [16;0;0;0; 3;0; 1;0x20; 1;0;0;0]
  = Some (mkResponse 16 3 0x2001 1 [])
  /\ parseMtpResponse [16;0;0;0; 3;0; 1;0x20; 1;0;0;0] = Throw RangeError.
Proof. split; reflexivity. Qed.

End CodecProperties.

(** ** Properties of hex opcodes *)

Section HexProperties.

Import JS MtpUtils.

(** C7. For every [n] in [0,0xFFFF], [parseHexOpcode (formatOpcode n)]
    is [n], and [formatOpcode n] is [0x] followed by exactly four
    uppercase hex digits that denote [n] (so it is zero-padded); in
    particular [formatOpcode 0] is ["0x0000"] and [formatOpcode 0xFE01]
    is ["0xFE01"]. *)
Theorem parseHexOpcode_formatOpcode n :
  0 <= n <= 0xFFFF ->
  parseHexOpcode (formatOpcode n) = Some n
  /\ (exists a b c d,
        formatOpcode n = str "0x" ++ [a; b; c; d]
        /\ forallb isUpperHexDigit [a; b; c; d] = true
        /\ hexValue [a; b; c; d] = n)
  /\ formatOpcode 0 = str "0x0000"
  /\ formatOpcode 0xFE01 = str "0xFE01".
Proof.
  intros Hn. pose proof (roundTrips_16bit n Hn) as Hrt.
  unfold roundTrips in Hrt. apply andb_true_iff in Hrt as [Hparse Hshape].
  split; [|split; [|split; reflexivity]].
  - destruct (parseHexOpcode (formatOpcode n)) as [m|]; [|done].
    apply Z.eqb_eq in Hparse. by subst.
  - unfold isFormatted in Hshape.
    destruct (formatOpcode n) as [|z [|x [|a [|b [|c [|d [|]]]]]]]; try done.
    apply andb_true_iff in Hshape as [[[Hz%Z.eqb_eq Hx%Z.eqb_eq]%andb_true_iff
                                         Hdigits]%andb_true_iff Hval%Z.eqb_eq].
    exists a, b, c, d. subst z x. done.
Qed.

Lemma parseHexOpcode_formatOpcode_witness :
  0 <= 0xFE01 <= 0xFFFF /\ parseHexOpcode (formatOpcode 0xFE01) = Some 0xFE01.
Proof.
  assert (0 <= 0xFE01 <= 0xFFFF) as H by lia.
  split; [exact H|]. exact (proj1 (parseHexOpcode_formatOpcode 0xFE01 H)).
Defined.

(** C4, at the failing input.  [parseHexOpcode] removes the prefix
    before it strips white space.  A [0x] that follows leading white
    space is therefore never removed and the input is rejected, although
    it is a prefix and four hex digits once the white space is stripped;
    and white space between the prefix and the digits is accepted. *)
Theorem parseHexOpcode_space_before_prefix :
  parseHexOpcode (str " 0xFE01") = None
  /\ parseHexOpcode_trim_first (str " 0xFE01") = Some 0xFE01
  /\ parseHexOpcode (str "0x FE01") = Some 0xFE01
  /\ parseHexOpcode_trim_first (str "0x FE01") = None.
Proof. repeat split; reflexivity. Qed.

End HexProperties.

(** ** Properties of the session *)

Section SessionProperties.

Import UsbMtpModule Session UseUsbDevice.





(** C5. A send on a session with no transport bound (the idle state,
    a closed session, or any state without a connection or without an
    OUT endpoint) is rejected with [NOT_CONNECTED]; the state, and with
    it the transaction counter, is unchanged and nothing is put on the
    bus. *)
Theorem sendMtpCommand_not_bound s s0 opcode params io :
  s = initial \/ s = closeConnection s0 \/ connected s = false ->
  sendMtpCommand s opcode params io = (s, Reject "NOT_CONNECTED", [])
  /\ transactionId (sendMtpCommand s opcode params io).1.1 = transactionId s.
Proof.
  intros H.
  assert (connected s = false) as Hc by (destruct H as [->|[->|H]]; done).
  rewrite sendMtpCommand_not_connected by done. done.
Qed.

Lemma sendMtpCommand_not_bound_witness :
  (closeConnection Fixture.opened = initial
   \/ closeConnection Fixture.opened = closeConnection Fixture.opened
   \/ connected (closeConnection Fixture.opened) = false)
  /\ sendMtpCommand (closeConnection Fixture.opened) 0xFE01 (Some [7])
                    (mkIO 16 0 [])
     = (closeConnection Fixture.opened, Reject "NOT_CONNECTED", []).
Proof.
  assert (closeConnection Fixture.opened = initial
          \/ closeConnection Fixture.opened = closeConnection Fixture.opened
          \/ connected (closeConnection Fixture.opened) = false) as H
    by (right; left; reflexivity).
  split; [exact H|].
  exact (proj1 (sendMtpCommand_not_bound _ Fixture.opened 0xFE01 (Some [7])
                                         (mkIO 16 0 []) H)).
Defined.

(** C10. When the bulk write of a send on a bound transport returns a
    negative value, the send is rejected with [TRANSFER_FAILED], no read
    is attempted, and the transaction counter has already been
    incremented once: the failed transfer has consumed an ID. *)
Theorem transfer_failed_consumes_id s opcode params io :
  connected s = true -> out_result io < 0 ->
  (sendMtpCommand s opcode params io).1.2 = Reject "TRANSFER_FAILED"
  /\ (sendMtpCommand s opcode params io).1.1
     = set_transactionId s (int32 (transactionId s + 1))
  /\ transactionId (sendMtpCommand s opcode params io).1.1 <> transactionId s
  /\ (- 2 ^ 31 <= transactionId s < 2 ^ 31 - 1 ->
      transactionId (sendMtpCommand s opcode params io).1.1 = transactionId s + 1)
  /\ (exists outEndpoint packet length timeout,
        (sendMtpCommand s opcode params io).2
        = [BulkOut outEndpoint packet length timeout]).
Proof.
  intros Hc Hout. destruct (connected_inv s Hc) as (c & o & Hcur & Hbulk).
  rewrite (sendMtpCommand_connected s opcode params io c o) by done.
  destruct (Z.ltb_spec (out_result io) 0); [|lia]. cbn [fst snd].
  split; [done|]. split; [done|]. split; [|split].
  - cbn [set_transactionId transactionId]. intros Heq.
    pose proof (int32_range (transactionId s + 1)) as Hr. rewrite Heq in Hr.
    apply (int32_succ_neq (transactionId s)).
    rewrite Heq. symmetry. apply int32_small. lia.
  - intros Hr. cbn [set_transactionId transactionId]. apply int32_small. lia.
  - eauto.
Qed.

Lemma transfer_failed_consumes_id_witness :
  (connected Fixture.opened = true /\ out_result (mkIO (-1) 0 []) < 0)
  /\ (sendMtpCommand Fixture.opened 0xFE01 None (mkIO (-1) 0 [])).1.1
     = set_transactionId Fixture.opened
                         (int32 (transactionId Fixture.opened + 1)).
Proof.
  assert (connected Fixture.opened = true) as H1 by reflexivity.
  assert (out_result (mkIO (-1) 0 []) < 0) as H2 by (simpl; lia).
  split; [done|].
  exact (proj1 (proj2 (transfer_failed_consumes_id Fixture.opened 0xFE01 None
                                                  (mkIO (-1) 0 []) H1 H2))).
Defined.

Lemma receivedCode_range io : 0 <= receivedCode io < 2 ^ 16.
Proof. unfold receivedCode. apply Z.mod_pos_bound. lia. Qed.





(** C9. Whether a send is permitted, what it transmits and what it
    reports never depend on the classification of the opcode (the
    category and range tables are not consulted): on a bound transport
    every opcode has its command container transmitted, and two sends
    that differ only in the opcode leave the same state, make the same
    calls on the bus apart from the opcode bytes, and report outcomes
    that differ only in the echoed opcode; the hook's verdict is the
    same. *)
Theorem send_ignores_classification s op1 op2 params io :
  connected s = true ->
  (exists outEndpoint rest,
     (sendMtpCommand s op1 params io).2
     = BulkOut outEndpoint
               (commandContainer op1 (transactionId s) (paramList params))
               (12 + 4 * len (paramList params)) BULK_TRANSFER_TIMEOUT_MS
       :: rest
     /\ (sendMtpCommand s op2 params io).2
        = BulkOut outEndpoint
                  (commandContainer op2 (transactionId s) (paramList params))
                  (12 + 4 * len (paramList params)) BULK_TRANSFER_TIMEOUT_MS
          :: rest)
  /\ (sendMtpCommand s op1 params io).1.1 = (sendMtpCommand s op2 params io).1.1
  /\ echoing op2 (sendMtpCommand s op1 params io).1.2
     = (sendMtpCommand s op2 params io).1.2
  /\ sendCommandResult (Some (sendMtpCommand s op1 params io).1.2)
     = sendCommandResult (Some (sendMtpCommand s op2 params io).1.2)
  /\ (sendMtpCommand s op1 params io).1.2 <> Reject "NOT_CONNECTED".
Proof.
  intros Hc. destruct (connected_inv s Hc) as (c & o & Hcur & Hbulk).
  rewrite !(sendMtpCommand_connected s _ params io c o) by done.
  rewrite !len_commandContainer.
  destruct (out_result io <? 0).
  { cbn [fst snd echoing]. repeat split; by eauto. }
  destruct (bulkInEndpoint s) as [inEndpoint|].
  - destruct (in_result io >? 0); cbn [fst snd echoing app];
      repeat split; by eauto.
  - cbn [fst snd echoing]. repeat split; by eauto.
Qed.

Lemma send_ignores_classification_witness :
  (connected Fixture.opened = true
   /\ MtpUtils.getOpcodeCategory 0x0001 = None
   /\ MtpUtils.getOpcodeRangeInfo 0x0001 = None
   /\ MtpUtils.getOpcodeCategory 0xFE01 = Some MtpUtils.dangerous)
  /\ echoing 0xFE01
       (sendMtpCommand Fixture.opened 0x0001 None (mkIO 12 0 [])).1.2
     = (sendMtpCommand Fixture.opened 0xFE01 None (mkIO 12 0 [])).1.2.
Proof.
  assert (connected Fixture.opened = true) as H by reflexivity.
  split; [repeat split; reflexivity|].
  exact (proj1 (proj2 (proj2 (send_ignores_classification Fixture.opened
                                0x0001 0xFE01 None (mkIO 12 0 []) H)))).
Defined.

(** C2 (amended). For a send on a bound transport, the success verdict
    (the hook's [isSuccess]; the native field [success] alone is
    [bytesSent > 0]) is true if and only if the write succeeded
    ([bytesSent > 0]) and either no response code was parsed (there is no
    IN endpoint, or fewer than 12 bytes were read, which includes a
    failed, timed-out or empty read) or the code parsed from the response
    equals 0x2001.  The reported code is the sentinel -1 exactly when no
    code was parsed. *)
Theorem sendCommand_success_policy s opcode params io :
  connected s = true ->
  ((sendCommand s opcode params io).2 = true
   <-> out_result io > 0
       /\ (noResponseParsed s io = true \/ receivedCode io = 0x2001))
  /\ (forall r, (sendMtpCommand s opcode (Some params) io).1.2 = Resolve r ->
        bytesSent r = out_result io
        /\ success r = (out_result io >? 0)
        /\ responseCode r
           = (if noResponseParsed s io then -1 else receivedCode io)).
Proof.
  intros Hc. destruct (connected_inv s Hc) as (c & o & Hcur & Hbulk).
  unfold sendCommand, noResponseParsed. cbn [fst snd].
  rewrite (sendMtpCommand_connected s opcode (Some params) io c o) by done.
  pose proof (receivedCode_range io) as Hcode.
  destruct (Z.ltb_spec (out_result io) 0) as [Hneg|Hnn].
  { cbn. split; [split; [done|lia]|done]. }
  unfold sendCommandResult, isSuccess.
  destruct (bulkInEndpoint s) as [inEndpoint|]; cbn [fst snd].
  - destruct (Z.gtb_spec (in_result io) 0) as [Hread|Hnone];
      cbn [success responseCode].
    + destruct (Z.geb_spec (in_result io) 12) as [Hfull|Hshort].
      * destruct (Z.ltb_spec (in_result io) 12); [lia|].
        split; [|by intros r [= <-]].
        rewrite andb_true_iff, orb_true_iff, !Z.eqb_eq, Z.gtb_gt.
        split; [intros [? [?|?]]|intros [? [?|?]]]; (lia || done || auto).
      * destruct (Z.ltb_spec (in_result io) 12); [|lia].
        split; [|by intros r [= <-]].
        rewrite andb_true_iff, Z.gtb_gt. cbn. split; [intros [? _]|]; auto; tauto.
    + destruct (Z.ltb_spec (in_result io) 12); [|lia].
      split; [|by intros r [= <-]].
      rewrite andb_true_iff, Z.gtb_gt. cbn. split; [intros [? _]|]; auto; tauto.
  - cbn [success responseCode].
    split; [|by intros r [= <-]].
    rewrite andb_true_iff, Z.gtb_gt. cbn. split; [intros [? _]|]; auto; tauto.
Qed.

Lemma sendCommand_success_policy_witness :
  connected Fixture.opened = true
  /\ ((sendCommand Fixture.opened 0xFE01 []
         (mkIO 12 12 [12;0;0;0; 3;0; 1;0x20; 1;0;0;0])).2 = true
      <-> out_result (mkIO 12 12 [12;0;0;0; 3;0; 1;0x20; 1;0;0;0]) > 0
          /\ (noResponseParsed Fixture.opened
                (mkIO 12 12 [12;0;0;0; 3;0; 1;0x20; 1;0;0;0]) = true
              \/ receivedCode (mkIO 12 12 [12;0;0;0; 3;0; 1;0x20; 1;0;0;0])
                 = 0x2001)).
Proof.
  assert (connected Fixture.opened = true) as H by reflexivity.
  split; [exact H|].
  exact (proj1 (sendCommand_success_policy Fixture.opened 0xFE01 []
                  (mkIO 12 12 [12;0;0;0; 3;0; 1;0x20; 1;0;0;0]) H)).
Defined.

(** C2, as stated, fails: a response of five bytes is observed (it is
    returned as [responseData]) but is too short to carry a code; the
    code stays at the sentinel -1, which is not 0x2001, and the verdict
    is success. *)
Lemma short_response_is_success :
  noResponseObserved Fixture.opened (mkIO 12 5 [1; 2; 3; 4; 5]) = false
  /\ (sendMtpCommand Fixture.opened 0xFE01 (Some []) (mkIO 12 5 [1; 2; 3; 4; 5])).1.2
     = Resolve (mkResult 12 0xFE01 1 (-1) true (Some [1; 2; 3; 4; 5]))
  /\ (sendCommand Fixture.opened 0xFE01 [] (mkIO 12 5 [1; 2; 3; 4; 5])).2 = true.
Proof. repeat split; vm_compute; reflexivity. Qed.


End SessionProperties.

(** ** Properties of the advisory helpers *)

(** Boolean comparisons of integers, in hypotheses and goal, as
    propositions. *)
Ltac zbool :=
  repeat match goal with
  | H : (_ && _) = true |- _ => apply andb_true_iff in H; destruct H
  | H : (_ || _) = false |- _ => apply orb_false_iff in H; destruct H
  | H : negb _ = true |- _ => apply negb_true_iff in H
  | H : negb _ = false |- _ => apply negb_false_iff in H
  | H : (_ =? _) = true |- _ => apply Z.eqb_eq in H
  | H : (_ =? _) = false |- _ => apply Z.eqb_neq in H
  | H : (_ <=? _) = true |- _ => apply Z.leb_le in H
  | H : (_ <=? _) = false |- _ => apply Z.leb_gt in H
  | H : (_ <? _) = true |- _ => apply Z.ltb_lt in H
  | H : (_ <? _) = false |- _ => apply Z.ltb_ge in H
  | H : (_ >=? _) = true |- _ => rewrite Z.geb_leb in H
  | H : (_ >=? _) = false |- _ => rewrite Z.geb_leb in H
  | H : (_ >? _) = true |- _ => rewrite Z.gtb_ltb in H
  | H : (_ >? _) = false |- _ => rewrite Z.gtb_ltb in H
  end.

Section AdvisoryProperties.

Import JS MtpUtils.

(** X1. The suggestions for any integer opcode are 16-bit opcodes, are
    pairwise distinct, never contain the opcode itself, lie at most two
    away from it, and are at most three. *)
Theorem getExplorationSuggestions_sound currentOpcode :
  Forall (fun s => 0 <= s <= 0xFFFF /\ s <> currentOpcode
                   /\ currentOpcode - 1 <= s <= currentOpcode + 2)
         (getExplorationSuggestions currentOpcode)
  /\ NoDup (getExplorationSuggestions currentOpcode)
  /\ (length (getExplorationSuggestions currentOpcode) <= 3)%nat.
Proof.
  unfold getExplorationSuggestions. cbv zeta.
  repeat (cbn [app existsb List.filter orb negb andb]; case_match);
    cbn [app existsb List.filter orb negb andb length];
    zbool;
    repeat match goal with
    | H : existsb _ _ = _ |- _ =>
        cbn [app existsb] in H; rewrite ?Z.eqb_refl, ?orb_true_r in H;
        try discriminate H; apply orb_false_iff in H as [? _]
    end;
    zbool;
    (split; [repeat constructor; lia|]);
    (split; [|lia]);
    repeat (constructor; [rewrite ?elem_of_cons, ?elem_of_nil; lia|]);
    constructor.
Qed.

(** X2. The listed ranges are disjoint, so the first match of
    [getOpcodeRangeInfo] is the only one: a listed range that contains the
    code is the range returned; the range returned contains the code; and
    nothing is returned exactly when no listed range contains it. *)
Theorem getOpcodeRangeInfo_unique code :
  (forall r, In r OPCODE_RANGES -> g_start r <= code <= g_end r ->
             getOpcodeRangeInfo code = Some r)
  /\ (forall r, getOpcodeRangeInfo code = Some r ->
                In r OPCODE_RANGES /\ g_start r <= code <= g_end r)
  /\ (getOpcodeRangeInfo code = None <->
      forall r, In r OPCODE_RANGES -> ~ g_start r <= code <= g_end r).
Proof.
  assert (forall r, In r OPCODE_RANGES -> g_start r <= code <= g_end r ->
                    getOpcodeRangeInfo code = Some r) as Hfirst.
  { intros r Hin Hr. unfold getOpcodeRangeInfo, OPCODE_RANGES in *.
    cbn [In] in Hin.
    repeat destruct Hin as [<-|Hin]; [..|done]; cbn in *;
      repeat (case_match; zbool; try lia); reflexivity. }
  assert (forall r, getOpcodeRangeInfo code = Some r ->
                    In r OPCODE_RANGES /\ g_start r <= code <= g_end r) as Hsound.
  { intros r Hr. apply find_some in Hr as [Hin Hr]. split; [done|].
    zbool. lia. }
  split; [exact Hfirst|]. split; [exact Hsound|]. split.
  - intros Hnone r Hin Hr. rewrite (Hfirst r Hin Hr) in Hnone. discriminate.
  - intros Hno. destruct (getOpcodeRangeInfo code) as [r|] eqn:Hr; [|done].
    destruct (Hsound r eq_refl) as [Hin Hc]. by destruct (Hno r Hin).
Qed.

(** X3. Every opcode that has a curated category is an odd opcode of the
    "Samsung Vendor Commands" range and is a vendor opcode; every opcode
    of a listed range is a vendor opcode except those of "Standard MTP
    Operations", none of which is. *)
Theorem curated_opcodes_are_vendor code :
  (forall c, getOpcodeCategory code = Some c ->
             isVendorOpcode code = true
             /\ Z.odd code = true
             /\ exists r, getOpcodeRangeInfo code = Some r
                          /\ g_name r = "Samsung Vendor Commands"%string)
  /\ (forall r, getOpcodeRangeInfo code = Some r ->
                isVendorOpcode code
                = negb (String.eqb (g_name r) "Standard MTP Operations")).
Proof.
  split.
  - intros c. unfold getOpcodeCategory, PRESET_OPCODES. cbn [List.find p_code].
    repeat match goal with
           | |- context [?a =? code] =>
               destruct (Z.eqb_spec a code) as [<-|_];
               [intros _; split; [reflexivity|split; [reflexivity|]];
                eexists; split; reflexivity|]
           end.
    done.
  - intros r. unfold getOpcodeRangeInfo, OPCODE_RANGES, isVendorOpcode.
    cbn [List.find g_start g_end].
    repeat match goal with
           | |- (if ?b then Some _ else _) = Some _ -> _ =>
               destruct b eqn:?;
               [intros [= <-]; zbool;
                destruct (Z.geb_spec code 0x9000), (Z.leb_spec code 0xFFFF);
                solve [lia | reflexivity]|]
           end.
    done.
Qed.

End AdvisoryProperties.

(** ** Hexadecimal numerals *)

Section Numerals.

Import JS MtpUtils.

Lemma digitChar_spec d :
  0 <= d <= 15 ->
  (0x30 <= digitChar d <= 0x39 \/ 0x61 <= digitChar d <= 0x66)
  /\ hexDigitValue (digitChar d) = d.
Proof.
  intros Hd. unfold digitChar, hexDigitValue.
  destruct (Z.ltb_spec d 10).
  - destruct (Z.leb_spec (0x30 + d) 0x39); lia.
  - destruct (Z.leb_spec (0x61 + (d - 10)) 0x39); [lia|].
    destruct (Z.leb_spec (0x61 + (d - 10)) 0x46); lia.
Qed.

Lemma hexValue_single c : hexValue [c] = hexDigitValue c.
Proof. unfold hexValue. simpl. lia. Qed.

(** With fuel for its digits, [hexDigits] writes lowercase digits that
    denote the number. *)
Lemma hexDigits_spec fuel n :
  0 <= n < 16 ^ Z.of_nat fuel ->
  Forall (fun c => 0x30 <= c <= 0x39 \/ 0x61 <= c <= 0x66) (hexDigits fuel n)
  /\ hexValue (hexDigits fuel n) = n.
Proof.
  revert n. induction fuel as [|fuel IH]; intros n Hn.
  - simpl in *. split; [constructor|]. unfold hexValue. simpl. lia.
  - cbn [hexDigits]. destruct (Z.ltb_spec n 16) as [Hsmall|Hbig].
    + destruct (digitChar_spec n) as [Hc Hv]; [lia|].
      split; [by constructor|]. by rewrite hexValue_single.
    + rewrite Nat2Z.inj_succ, Z.pow_succ_r in Hn by lia.
      destruct (IH (n / 16)) as [Hall Hval].
      { split; [apply Z.div_pos; lia|apply Z.div_lt_upper_bound; lia]. }
      destruct (digitChar_spec (n mod 16)) as [Hc Hv].
      { pose proof (Z.mod_pos_bound n 16). lia. }
      split.
      * apply Forall_app. split; [done|by constructor].
      * rewrite hexValue_snoc, Hval, Hv.
        pose proof (Z.div_mod n 16). lia.
  Qed.

Lemma hexDigits_length_le fuel n (k : nat) :
  (1 <= k)%nat -> 0 <= n < 16 ^ Z.of_nat k ->
  (length (hexDigits fuel n) <= k)%nat.
Proof.
  revert n k. induction fuel as [|fuel IH]; intros n k Hk Hn; [simpl; lia|].
  cbn [hexDigits]. destruct (Z.ltb_spec n 16) as [Hsmall|Hbig]; [simpl; lia|].
  rewrite length_app. simpl length.
  destruct k as [|[|k]]; [lia|simpl in Hn; lia|].
  rewrite Nat2Z.inj_succ, Z.pow_succ_r in Hn by lia.
  specialize (IH (n / 16) (S k)).
  assert (0 <= n / 16 < 16 ^ Z.of_nat (S k)).
  { split; [apply Z.div_pos; lia|apply Z.div_lt_upper_bound; lia]. }
  lia.
Qed.

Lemma hexDigits_length_gt fuel n (k : nat) :
  16 ^ Z.of_nat k <= n < 16 ^ Z.of_nat fuel ->
  (k < length (hexDigits fuel n))%nat.
Proof.
  revert n k. induction fuel as [|fuel IH]; intros n k Hn.
  - assert (0 < 16 ^ Z.of_nat k) by (apply Z.pow_pos_nonneg; lia).
    simpl in Hn. lia.
  - cbn [hexDigits]. destruct (Z.ltb_spec n 16) as [Hsmall|Hbig].
    + destruct k as [|k]; [simpl; lia|].
      rewrite Nat2Z.inj_succ, Z.pow_succ_r in Hn by lia.
      assert (0 < 16 ^ Z.of_nat k) by (apply Z.pow_pos_nonneg; lia). lia.
    + rewrite length_app. simpl length.
      destruct k as [|k]; [lia|].
      rewrite !Nat2Z.inj_succ, !Z.pow_succ_r in Hn by lia.
      specialize (IH (n / 16) k).
      assert (16 ^ Z.of_nat k <= n / 16 < 16 ^ Z.of_nat fuel).
      { split; [apply Z.div_le_lower_bound; lia
               |apply Z.div_lt_upper_bound; lia]. }
      lia.
Qed.

(** The fuel that [toString16] passes is enough. *)
Lemma toString16_fuel n :
  0 <= n -> n < 16 ^ Z.of_nat (S (Z.to_nat (Z.log2 n))).
Proof.
  intros Hn. rewrite Nat2Z.inj_succ, Z2Nat.id by apply Z.log2_nonneg.
  destruct (Z.eq_dec n 0) as [->|Hpos]; [simpl; lia|].
  pose proof (Z.log2_spec n ltac:(lia)) as [_ Hlt].
  pose proof (Z.log2_nonneg n).
  assert (2 ^ Z.succ (Z.log2 n) <= 16 ^ Z.succ (Z.log2 n))
    by (apply Z.pow_le_mono_l; lia).
  lia.
Qed.

Lemma isUpperHexDigit_hex c : isUpperHexDigit c = true -> isHexDigit c = true.
Proof.
  unfold isUpperHexDigit, isHexDigit. intros H.
  apply orb_true_iff in H as [H|H]; rewrite H; by rewrite ?orb_true_r.
Qed.

(** [toUpperCase] on one hex digit: an uppercase digit of the same value. *)
Lemma upper_hex_digit c :
  isHexDigit c = true ->
  let u := if (0x61 <=? c) && (c <=? 0x7A) then c - 0x20 else c in
  isUpperHexDigit u = true /\ hexDigitValue u = hexDigitValue c.
Proof.
  intros H%isHexDigit_bounds. cbv zeta. unfold isUpperHexDigit, hexDigitValue.
  destruct (Z.leb_spec 0x61 c), (Z.leb_spec c 0x7A); cbn [andb];
    repeat match goal with
           | |- context [?a <=? ?b] => destruct (Z.leb_spec a b)
           end; cbn; lia.
Qed.

Lemma toUpperCase_hex s :
  forallb isHexDigit s = true ->
  forallb isUpperHexDigit (toUpperCase s) = true
  /\ hexValue (toUpperCase s) = hexValue s.
Proof.
  induction s as [|c s IH] using rev_ind; [done|].
  rewrite forallb_app, andb_true_iff. cbn [forallb]. rewrite andb_true_r.
  intros [Hs Hc]. destruct (IH Hs) as [Hup Hval].
  destruct (upper_hex_digit c Hc) as [Hu Hv].
  unfold toUpperCase in *. rewrite map_app. cbn [map].
  rewrite forallb_app, Hup. cbn [forallb]. rewrite Hu.
  split; [done|]. by rewrite !hexValue_snoc, Hval, Hv.
Qed.

Lemma lower_hex_is_hex s :
  Forall (fun c => 0x30 <= c <= 0x39 \/ 0x61 <= c <= 0x66) s ->
  forallb isHexDigit s = true.
Proof.
  induction 1 as [|c s Hc _ IH]; [done|]. cbn [forallb]. rewrite IH, andb_true_r.
  unfold isHexDigit.
  destruct (Z.leb_spec 0x30 c), (Z.leb_spec c 0x39), (Z.leb_spec 0x41 c),
    (Z.leb_spec c 0x46), (Z.leb_spec 0x61 c), (Z.leb_spec c 0x66); cbn; lia.
Qed.

Lemma hexValue_zeros k s : hexValue (replicate k 0x30 ++ s) = hexValue s.
Proof. induction k as [|k IH]; [done|]. exact IH. Qed.

(** Nothing is stripped from a string without white space. *)
Lemma trim_no_space s :
  forallb (fun c => negb (isWhiteSpace c)) s = true -> trim s = s.
Proof.
  assert (forall t, forallb (fun c => negb (isWhiteSpace c)) t = true ->
                    trimStart t = t) as Hstart.
  { intros [|c t]; [done|]. cbn [forallb trimStart].
    intros [Hc%negb_true_iff _]%andb_true_iff. by rewrite Hc. }
  intros Hs. unfold trim, trimEnd. rewrite (Hstart s Hs).
  rewrite Hstart; [apply reverse_involutive|].
  apply forallb_forall. intros c Hc.
  rewrite forallb_forall in Hs. apply Hs.
  apply list_elem_of_In. apply list_elem_of_In in Hc.
  by apply elem_of_reverse.
Qed.

Lemma hex_no_space s :
  forallb isHexDigit s = true ->
  forallb (fun c => negb (isWhiteSpace c)) s = true.
Proof.
  rewrite !forallb_forall. intros H c Hc.
  by rewrite (hexDigit_not_space c (H c Hc)).
Qed.

Lemma strip0x_hex s : forallb isHexDigit s = true -> strip0x s = s.
Proof.
  destruct s as [|c0 [|c1 s]]; [done..|]. cbn [forallb strip0x].
  intros [_ [Hc1%isHexDigit_bounds _]%andb_true_iff]%andb_true_iff.
  destruct (Z.eqb_spec c1 0x78); [lia|]. destruct (Z.eqb_spec c1 0x58); [lia|].
  by rewrite andb_false_r.
Qed.

(** On a string of hex digits [parseHexOpcode] only looks at the length. *)
Lemma parseHexOpcode_hex s :
  forallb isHexDigit s = true ->
  parseHexOpcode s
  = if (1 <=? length s)%nat && (length s <=? 4)%nat then Some (hexValue s)
    else None.
Proof.
  intros Hs. rewrite parseHexOpcode_accepts, strip0x_hex by done.
  rewrite trim_no_space by by apply hex_no_space.
  unfold isHex1to4. by rewrite Hs.
Qed.

(** The shape of [formatOpcode n] for [n >= 0]: [0x], then uppercase
    digits that denote [n], padded to four. *)
Lemma formatOpcode_nonneg n :
  0 <= n ->
  exists digits,
    formatOpcode n = 0x30 :: 0x78 :: digits
    /\ forallb isUpperHexDigit digits = true
    /\ hexValue digits = n
    /\ (4 <= length digits)%nat
    /\ (n <= 0xFFFF -> length digits = 4%nat)
    /\ (0xFFFF < n -> (4 < length digits)%nat).
Proof.
  intros Hn. unfold formatOpcode, toString16.
  destruct (Z.ltb_spec n 0); [lia|].
  set (fuel := S (Z.to_nat (Z.log2 n))).
  pose proof (toString16_fuel n Hn) as Hfuel. fold fuel in Hfuel.
  destruct (hexDigits_spec fuel n) as [Hlow Hval]; [lia|].
  apply lower_hex_is_hex in Hlow.
  destruct (toUpperCase_hex _ Hlow) as [Hup Hupval].
  assert (length (toUpperCase (hexDigits fuel n)) = length (hexDigits fuel n))
    as Hlen by apply length_map.
  exists (padStart 4 0x30 (toUpperCase (hexDigits fuel n))).
  split; [reflexivity|]. unfold padStart.
  rewrite forallb_app, Hup, andb_true_r, hexValue_zeros, Hupval, Hval.
  rewrite length_app, length_replicate, Hlen.
  split; [|split; [done|]].
  { apply forallb_forall. intros c Hc%list_elem_of_In.
    apply elem_of_replicate in Hc as [-> _]. reflexivity. }
  split; [lia|]. split.
  - intros Hmax.
    pose proof (hexDigits_length_le fuel n 4 ltac:(lia) ltac:(simpl; lia)).
    lia.
  - intros Hover.
    pose proof (hexDigits_length_gt fuel n 4 ltac:(simpl; lia)).
    lia.
Qed.

(** The shape of [formatOpcode n] for [n < 0]: a minus sign among the
    characters after [0x]. *)
Lemma formatOpcode_negative n :
  n < 0 ->
  exists zeros digits,
    formatOpcode n = 0x30 :: 0x78 :: replicate zeros 0x30 ++ 0x2D :: digits
    /\ forallb isUpperHexDigit digits = true.
Proof.
  intros Hn. unfold formatOpcode, toString16.
  destruct (Z.ltb_spec n 0); [|lia].
  set (fuel := S (Z.to_nat (Z.log2 (- n)))).
  pose proof (toString16_fuel (- n) ltac:(lia)) as Hfuel. fold fuel in Hfuel.
  destruct (hexDigits_spec fuel (- n)) as [Hlow _]; [lia|].
  apply lower_hex_is_hex in Hlow.
  destruct (toUpperCase_hex _ Hlow) as [Hup _].
  eexists _, (toUpperCase (hexDigits fuel (- n))). split; [|exact Hup].
  reflexivity.
Qed.

End Numerals.

(** ** More properties of hex opcodes *)

Section HexExtras.

Import JS MtpUtils HomeScreen.

Lemma parse_format n :
  parseHexOpcode (formatOpcode n)
  = if (0 <=? n) && (n <=? 0xFFFF) then Some n else None.
Proof.
  destruct (Z.leb_spec 0 n) as [Hn|Hneg]; cbn [andb].
  - destruct (formatOpcode_nonneg n Hn)
      as (digits & -> & Hup & Hval & Hmin & Hfour & Hmore).
    rewrite parseHexOpcode_accepts.
    change (strip0x (0x30 :: 0x78 :: digits)) with digits.
    assert (forallb isHexDigit digits = true) as Hhex.
    { apply forallb_forall. intros c Hc. apply isUpperHexDigit_hex.
      rewrite forallb_forall in Hup. by apply Hup. }
    rewrite trim_no_space by by apply hex_no_space.
    unfold isHex1to4. rewrite Hhex, Hval. cbn [andb].
    destruct (Z.leb_spec n 0xFFFF) as [Hin|Hout].
    + rewrite (Hfour Hin). reflexivity.
    + destruct (Nat.leb_spec (length digits) 4); [specialize (Hmore Hout); lia|].
      by rewrite andb_false_r.
  - destruct (formatOpcode_negative n Hneg) as (zeros & digits & -> & Hup).
    rewrite parseHexOpcode_accepts.
    change (strip0x (0x30 :: 0x78 :: ?r)) with r.
    assert (forallb isHexDigit digits = true) as Hhex.
    { apply forallb_forall. intros c Hc. apply isUpperHexDigit_hex.
      rewrite forallb_forall in Hup. by apply Hup. }
    rewrite trim_no_space.
    + unfold isHex1to4. rewrite forallb_app. cbn [forallb].
      change (isHexDigit 0x2D) with false. by rewrite andb_false_r.
    + rewrite forallb_app. cbn [forallb].
      rewrite (hex_no_space digits Hhex).
      change (negb (isWhiteSpace 0x2D)) with true. rewrite andb_true_r.
      apply forallb_forall. intros c Hc%list_elem_of_In.
      apply elem_of_replicate in Hc as [-> _]. reflexivity.
Qed.

(** X4. For every integer [n], [parseHexOpcode (formatOpcode n)] is [n]
    when [n] is a 16-bit opcode and is invalid otherwise: [formatOpcode]
    never truncates, a larger number gets more than four digits and a
    negative one a minus sign, and the parser rejects both. *)
Theorem parseHexOpcode_formatOpcode_any n :
  parseHexOpcode (formatOpcode n)
  = if (0 <=? n) && (n <=? 0xFFFF) then Some n else None.
Proof. apply parse_format. Qed.

(** X5. For a 16-bit opcode, the display name parses back to the opcode
    exactly when the opcode has no curated preset: then the name is the
    formatted opcode; a preset's name is never a valid hex opcode. *)
Theorem getOpcodeName_parses code :
  0 <= code <= 0xFFFF ->
  parseHexOpcode (getOpcodeName code)
  = match getOpcodeCategory code with
    | None => Some code
    | Some _ => None
    end.
Proof.
  intros Hc. unfold getOpcodeName, getOpcodeCategory, PRESET_OPCODES.
  cbn [List.find p_code].
  repeat match goal with
         | |- context [?a =? code] =>
             destruct (Z.eqb_spec a code) as [<-|_]; [reflexivity|]
         end.
  rewrite parse_format.
  destruct (Z.leb_spec 0 code), (Z.leb_spec code 0xFFFF); (lia || done).
Qed.

Lemma getOpcodeName_parses_witness :
  0 <= 0x1001 <= 0xFFFF
  /\ parseHexOpcode (getOpcodeName 0x1001)
     = match getOpcodeCategory 0x1001 with
       | None => Some 0x1001
       | Some _ => None
       end.
Proof.
  assert (0 <= 0x1001 <= 0xFFFF) as H by lia.
  split; [exact H|]. exact (getOpcodeName_parses 0x1001 H).
Defined.


Lemma forallb_take {A} (p : A -> bool) (l : list A) n :
  forallb p l = true -> forallb p (take n l) = true.
Proof.
  revert n. induction l as [|x l IH]; intros [|n]; try done.
  cbn [forallb take]. intros [Hx Hl]%andb_true_iff.
  by rewrite Hx, IH.
Qed.

Lemma forallb_filter_self {A} (p : A -> bool) (l : list A) :
  forallb p (List.filter p l) = true.
Proof.
  induction l as [|x l IH]; [done|]. cbn [List.filter].
  destruct (p x) eqn:Hx; [|done]. cbn [forallb]. by rewrite Hx, IH.
Qed.

Lemma filter_all {A} (p : A -> bool) (l : list A) :
  forallb p l = true -> List.filter p l = l.
Proof.
  induction l as [|x l IH]; [done|]. cbn [forallb List.filter].
  intros [Hx Hl]%andb_true_iff. by rewrite Hx, IH.
Qed.

Lemma filter_none {A} (p : A -> bool) (l : list A) :
  forallb (fun x => negb (p x)) l = true -> List.filter p l = [].
Proof.
  induction l as [|x l IH]; [done|]. cbn [forallb List.filter].
  intros [Hx%negb_true_iff Hl]%andb_true_iff. rewrite Hx. by apply IH.
Qed.

Lemma toUpperCase_upper s :
  forallb isUpperHexDigit s = true -> toUpperCase s = s.
Proof.
  induction s as [|c s IH]; [done|]. cbn [forallb].
  intros [Hc Hs]%andb_true_iff. unfold toUpperCase in *. cbn [map].
  rewrite IH by done. f_equal. unfold isUpperHexDigit in Hc.
  destruct (Z.leb_spec 0x61 c), (Z.leb_spec c 0x7A); try done.
  cbn [andb]. exfalso.
  destruct (Z.leb_spec 0x30 c), (Z.leb_spec c 0x39), (Z.leb_spec 0x41 c),
    (Z.leb_spec c 0x46); cbn in Hc; (lia || done).
Qed.

(** X7. Whatever is typed, the text that [handleOpcodeChange] keeps is
    at most four uppercase hex digits, and keeping is idempotent; it is
    empty exactly when the input has no hex digit; and when it is not
    empty, [handleSendManual] always obtains a 16-bit opcode from it (the
    "invalid hex" branch is only reachable with the empty text), the one
    whose range [currentRangeInfo] shows once two digits are there. *)
Theorem handleOpcodeChange_valid text :
  (length (handleOpcodeChange text) <= 4)%nat
  /\ forallb isUpperHexDigit (handleOpcodeChange text) = true
  /\ handleOpcodeChange (handleOpcodeChange text) = handleOpcodeChange text
  /\ (handleOpcodeChange text = [] <-> forallb (fun c => negb (isHexDigit c)) text = true)
  /\ (handleOpcodeChange text <> [] ->
      handleSendManual (handleOpcodeChange text)
      = Some (hexValue (handleOpcodeChange text))
      /\ 0 <= hexValue (handleOpcodeChange text) <= 0xFFFF)
  /\ handleSendManual [] = None
  /\ ((2 <= length (handleOpcodeChange text))%nat ->
      currentRangeInfo (handleOpcodeChange text)
      = getOpcodeRangeInfo (hexValue (handleOpcodeChange text))).
Proof.
  pose proof (forallb_filter_self isHexDigit text) as Hfil.
  destruct (toUpperCase_hex _ Hfil) as [Hup _].
  assert (forallb isUpperHexDigit (handleOpcodeChange text) = true) as Hm
    by (unfold handleOpcodeChange; by apply forallb_take).
  assert (length (handleOpcodeChange text) <= 4)%nat as Hlen
    by (unfold handleOpcodeChange; rewrite length_take; lia).
  assert (forallb isHexDigit (handleOpcodeChange text) = true) as Hhex.
  { apply forallb_forall. intros c Hc. apply isUpperHexDigit_hex.
    rewrite forallb_forall in Hm. by apply Hm. }
  split; [exact Hlen|]. split; [exact Hm|]. split.
  { unfold handleOpcodeChange at 1.
    rewrite (filter_all isHexDigit) by done.
    rewrite toUpperCase_upper by done. by apply take_ge. }
  split.
  { unfold handleOpcodeChange, toUpperCase.
    split.
    - intros Hnil. apply forallb_forall. intros c Hc.
      destruct (isHexDigit c) eqn:Hd; [|done]. exfalso.
      assert (In c (List.filter isHexDigit text)) as Hin by (by apply filter_In).
      destruct (List.filter isHexDigit text) as [|x l]; [done|]. done.
    - intros Hno. by rewrite (filter_none isHexDigit text Hno). }
  split.
  { intros Hne. unfold handleSendManual. rewrite parseHexOpcode_hex by done.
    destruct (handleOpcodeChange text) as [|c m] eqn:Hm'; [done|].
    destruct (Nat.leb_spec 1 (length (c :: m))); [|simpl in *; lia].
    destruct (Nat.leb_spec (length (c :: m)) 4); [|lia].
    split; [done|].
    pose proof (hexValue_range (c :: m) Hhex).
    assert (16 ^ Z.of_nat (length (c :: m)) <= 16 ^ 4)
      by (apply Z.pow_le_mono_r; lia).
    lia. }
  split; [reflexivity|].
  intros Htwo. unfold currentRangeInfo.
  destruct (Nat.leb_spec 2 (length (handleOpcodeChange text))); [|lia].
  assert (isHex1to4 (handleOpcodeChange text) = true) as H14.
  { unfold isHex1to4. rewrite Hhex. cbn [andb].
    apply andb_true_iff. split; apply Nat.leb_le; lia. }
  by destruct (parseInt16_digits _ H14) as [-> _].
Qed.

End HexExtras.

(** ** More properties of the packet codec *)

Section CodecExtras.

Import DataView MtpUtils.

Lemma octets_le_bytes n v : octets (le_bytes n v) = true.
Proof.
  revert v. induction n as [|n IH]; intros v; [done|].
  cbn [le_bytes octets forallb]. fold (octets (le_bytes n (v / 256))).
  rewrite IH, andb_true_r. pose proof (Z.mod_pos_bound v 256 ltac:(lia)).
  apply andb_true_iff. split; [apply Z.leb_le|apply Z.ltb_lt]; lia.
Qed.

Lemma octets_app a b : octets (a ++ b) = octets a && octets b.
Proof. apply forallb_app. Qed.

Lemma octets_commandContainer opcode tx params :
  octets (commandContainer opcode tx params) = true.
Proof.
  unfold commandContainer. rewrite !octets_app, !octets_le_bytes. cbn [andb].
  induction params as [|p ps IH]; [done|].
  cbn [flat_map]. by rewrite octets_app, octets_le_bytes, IH.
Qed.

Lemma octets_take n data : octets data = true -> octets (take n data) = true.
Proof. apply forallb_take. Qed.

Lemma octets_drop n data : octets data = true -> octets (drop n data) = true.
Proof.
  revert n. induction data as [|b data IH]; intros [|n]; try done.
  cbn [octets forallb drop]. intros [_ H]%andb_true_iff. by apply IH.
Qed.

Lemma le_value_bound bs :
  octets bs = true -> 0 <= le_value bs < 256 ^ Z.of_nat (length bs).
Proof.
  induction bs as [|b bs IH]; [simpl; lia|].
  cbn [octets forallb]. intros [Hb Hbs]%andb_true_iff. zbool.
  specialize (IH Hbs). cbn [le_value length].
  rewrite Nat2Z.inj_succ, Z.pow_succ_r by lia. lia.
Qed.

(** Encoding what was decoded gives the octets back. *)
Lemma le_bytes_le_value bs :
  octets bs = true -> le_bytes (length bs) (le_value bs) = bs.
Proof.
  induction bs as [|b bs IH]; [done|].
  cbn [octets forallb]. intros [Hb Hbs]%andb_true_iff. zbool.
  cbn [length le_bytes le_value]. f_equal.
  - rewrite (Z.mul_comm 256), Z.mod_add by lia. apply Z.mod_small. lia.
  - rewrite (Z.mul_comm 256), Z.div_add by lia.
    rewrite Z.div_small by lia. by apply IH.
Qed.

Lemma length_field width data off :
  0 <= off -> off + Z.of_nat width <= len data ->
  length (take width (drop (Z.to_nat off) data)) = width.
Proof.
  intros H0 H1. unfold len in H1. rewrite length_take, length_drop. lia.
Qed.

Lemma uint_at_bound width data off :
  octets data = true -> 0 <= uint_at width data off < 256 ^ Z.of_nat width.
Proof.
  intros Hoct. unfold uint_at.
  pose proof (le_value_bound (take width (drop (Z.to_nat off) data))
                (octets_take _ _ (octets_drop _ _ Hoct))) as Hb.
  assert (length (take width (drop (Z.to_nat off) data)) <= width)%nat
    by (rewrite length_take; lia).
  assert (256 ^ Z.of_nat (length (take width (drop (Z.to_nat off) data)))
          <= 256 ^ Z.of_nat width) by (apply Z.pow_le_mono_r; lia).
  lia.
Qed.

Lemma le_bytes_uint_at width data off :
  octets data = true -> 0 <= off -> off + Z.of_nat width <= len data ->
  le_bytes width (uint_at width data off)
  = take width (drop (Z.to_nat off) data).
Proof.
  intros Hoct H0 H1. unfold uint_at.
  rewrite <- (length_field width data off H0 H1) at 1.
  apply le_bytes_le_value. by apply octets_take, octets_drop.
Qed.

Lemma uint_at_app_l width (a b : list Z) off :
  0 <= off -> off + Z.of_nat width <= len a ->
  uint_at width (a ++ b) off = uint_at width a off.
Proof.
  intros H0 H1. unfold uint_at, len in *. f_equal.
  rewrite drop_app_le by lia. apply take_app_le. rewrite length_drop. lia.
Qed.

(** A successful parse, spelled out. *)
Lemma parse_some data r :
  parseMtpResponse data = Ok (Some r) ->
  12 <= len data
  /\ 12 + 4 * claimedParams data <= len data
  /\ r = mkResponse (uint_at 4 data 0) (uint_at 2 data 4) (uint_at 2 data 6)
                    (uint_at 4 data 8)
                    (map (fun k => uint_at 4 data (12 + 4 * Z.of_nat k))
                         (seq 0 (Z.to_nat (claimedParams data)))).
Proof.
  intros Hr.
  assert (12 <= len data) as Hlen.
  { unfold parseMtpResponse in Hr.
    destruct (Z.ltb_spec (len data) 12); [discriminate|done]. }
  assert (0 <= claimedParams data) by (unfold claimedParams; lia).
  rewrite parse_header, claimedParams_nat in Hr by done.
  destruct (Z.le_gt_cases (12 + 4 * claimedParams data) (len data)) as [Hfit|Hover].
  - rewrite (readParams_reads data _ 0 []) in Hr by lia.
    cbn [rbind app] in Hr. by injection Hr as <-.
  - rewrite (readParams_throws data _ 0 []) in Hr by lia. discriminate.
Qed.

(** X8. For every opcode, transaction ID and parameter list, the Kotlin
    builder of the native module and the TypeScript builder return the
    same bytes without throwing: the command container, octet by octet,
    of length [12 + 4 * len params]. *)
Theorem builders_same_bytes opcode tx params :
  UsbMtpModule.buildMtpCommandPacket opcode tx params
  = buildMtpCommandPacket opcode tx params
  /\ buildMtpCommandPacket opcode tx params
     = Ok (commandContainer opcode tx params)
  /\ octets (commandContainer opcode tx params) = true
  /\ len (commandContainer opcode tx params) = 12 + 4 * len params.
Proof.
  split; [apply builders_agree|]. split; [apply ts_build_container|].
  split; [apply octets_commandContainer|apply len_commandContainer].
Qed.

(** X9. The builders do not reject out-of-range numbers: only the low 16
    bits of the opcode and the low 32 bits of the transaction ID and of
    each parameter reach the packet. *)
Theorem buildMtpCommandPacket_truncates opcode tx params :
  buildMtpCommandPacket opcode tx params
  = buildMtpCommandPacket (opcode mod 2 ^ 16) (tx mod 2 ^ 32)
                          (map (fun p => p mod 2 ^ 32) params)
  /\ buildMtpCommandPacket (opcode + 2 ^ 16) tx params
     = buildMtpCommandPacket opcode tx params.
Proof.
  rewrite !ts_build_container. unfold commandContainer.
  assert (forall v, le_bytes 2 (v mod 2 ^ 16) = le_bytes 2 v) as H16
    by (intros v; apply (le_bytes_mod 2)).
  assert (forall v, le_bytes 4 (v mod 2 ^ 32) = le_bytes 4 v) as H32
    by (intros v; apply (le_bytes_mod 4)).
  split.
  - rewrite H16, H32. unfold len. rewrite length_map. do 5 f_equal.
    induction params as [|p ps IH]; [done|]. cbn [map flat_map].
    by rewrite H32, IH.
  - do 4 f_equal. rewrite <- (H16 (opcode + 2 ^ 16)), <- (H16 opcode).
    f_equal. rewrite <- (Z.mul_1_l (2 ^ 16)) at 1. apply Z.mod_add. lia.
Qed.

(** X10. Bytes after the container are ignored: when the parameters that
    the length field claims lie inside [data], parsing [data] followed by
    anything gives the result of parsing [data]. *)
Theorem parseMtpResponse_ignores_trailing data extra :
  12 <= len data -> claimedParams data <= availableParams data ->
  parseMtpResponse (data ++ extra) = parseMtpResponse data.
Proof.
  intros Hlen Hfit%(availableParams_spec data _ Hlen).
  assert (0 <= claimedParams data) by (unfold claimedParams; lia).
  assert (claimedParams (data ++ extra) = claimedParams data) as Hclaim
    by (unfold claimedParams; rewrite uint_at_app_l by (simpl; lia); done).
  pose proof (len_nonneg extra).
  rewrite !parse_header, !claimedParams_nat by (rewrite ?len_app; lia).
  rewrite Hclaim.
  rewrite !(readParams_reads _ _ 0 []) by (rewrite ?len_app; lia).
  cbn [rbind app]. rewrite !uint_at_app_l by (simpl; lia).
  do 3 f_equal. apply map_ext_in. intros k Hk%in_seq.
  apply uint_at_app_l; simpl; lia.
Qed.

Lemma parseMtpResponse_ignores_trailing_witness :
  (12 <= len [12;0;0;0; 3;0; 1;0x20; 1;0;0;0]
   /\ claimedParams [12;0;0;0; 3;0; 1;0x20; 1;0;0;0]
      <= availableParams [12;0;0;0; 3;0; 1;0x20; 1;0;0;0])
  /\ parseMtpResponse ([12;0;0;0; 3;0; 1;0x20; 1;0;0;0] ++ [0xAA; 0xBB])
     = parseMtpResponse [12;0;0;0; 3;0; 1;0x20; 1;0;0;0].
Proof.
  assert (12 <= len [12;0;0;0; 3;0; 1;0x20; 1;0;0;0]) as H1
    by (unfold len; simpl; lia).
  assert (claimedParams [12;0;0;0; 3;0; 1;0x20; 1;0;0;0]
          <= availableParams [12;0;0;0; 3;0; 1;0x20; 1;0;0;0]) as H2
    by (vm_compute; discriminate).
  split; [done|].
  exact (parseMtpResponse_ignores_trailing _ [0xAA; 0xBB] H1 H2).
Defined.

(** X11. A container parsed from octets has fields of their wire width:
    length and transaction ID below 2^32, type and code below 2^16, every
    parameter below 2^32, none negative. *)
Theorem parseMtpResponse_field_ranges data r :
  octets data = true -> parseMtpResponse data = Ok (Some r) ->
  0 <= r_length r < 2 ^ 32 /\ 0 <= r_type r < 2 ^ 16
  /\ 0 <= r_code r < 2 ^ 16 /\ 0 <= r_transactionId r < 2 ^ 32
  /\ Forall (fun p => 0 <= p < 2 ^ 32) (r_params r).
Proof.
  intros Hoct (_ & _ & ->)%parse_some. cbn [r_length r_type r_code
    r_transactionId r_params].
  pose proof (uint_at_bound 4 data 0 Hoct).
  pose proof (uint_at_bound 2 data 4 Hoct).
  pose proof (uint_at_bound 2 data 6 Hoct).
  pose proof (uint_at_bound 4 data 8 Hoct).
  change (256 ^ Z.of_nat 4) with (2 ^ 32) in *.
  change (256 ^ Z.of_nat 2) with (2 ^ 16) in *.
  repeat (split; [lia|]).
  apply Forall_forall. intros p (k & <- & _)%list_elem_of_In%in_map_iff.
  pose proof (uint_at_bound 4 data (12 + 4 * Z.of_nat k) Hoct).
  change (256 ^ Z.of_nat 4) with (2 ^ 32) in *. lia.
Qed.

Lemma parseMtpResponse_field_ranges_witness :
  (octets [12;0;0;0; 3;0; 1;0x20; 1;0;0;0] = true
   /\ parseMtpResponse [12;0;0;0; 3;0; 1;0x20; 1;0;0;0]
      = Ok (Some (mkResponse 12 3 0x2001 1 [])))
  /\ 0 <= r_code (mkResponse 12 3 0x2001 1 []) < 2 ^ 16.
Proof.
  assert (octets [12;0;0;0; 3;0; 1;0x20; 1;0;0;0] = true) as H1 by reflexivity.
  assert (parseMtpResponse [12;0;0;0; 3;0; 1;0x20; 1;0;0;0]
          = Ok (Some (mkResponse 12 3 0x2001 1 []))) as H2 by reflexivity.
  split; [done|].
  exact (proj1 (proj2 (proj2 (parseMtpResponse_field_ranges _ _ H1 H2)))).
Defined.

Lemma split_header (l : list Z) :
  l = take 4 l ++ take 2 (drop 4 l) ++ take 2 (drop 6 l)
      ++ take 4 (drop 8 l) ++ drop 12 l.
Proof.
  assert (drop 8 l = take 4 (drop 8 l) ++ drop 12 l) as H8
    by (change 12%nat with (8 + 4)%nat; by rewrite <- drop_drop, take_drop).
  assert (drop 6 l = take 2 (drop 6 l) ++ drop 8 l) as H6
    by (change 8%nat with (6 + 2)%nat; by rewrite <- drop_drop, take_drop).
  assert (drop 4 l = take 2 (drop 4 l) ++ drop 6 l) as H4
    by (change 6%nat with (4 + 2)%nat; by rewrite <- drop_drop, take_drop).
  rewrite <- H8, <- H6, <- H4. by rewrite take_drop.
Qed.

(** Serialising the parameters that the loop read gives back the bytes
    they were read from. *)
Lemma params_chunks data (count j : nat) :
  octets data = true ->
  12 + 4 * Z.of_nat (j + count) <= len data ->
  flat_map (le_bytes 4)
           (map (fun k => uint_at 4 data (12 + 4 * Z.of_nat k)) (seq j count))
  = take (4 * count) (drop (12 + 4 * j) data).
Proof.
  intros Hoct. revert j. induction count as [|count IH]; intros j Hfit.
  - by rewrite Nat.mul_0_r.
  - cbn [seq map flat_map]. rewrite IH by lia.
    rewrite le_bytes_uint_at by (done || lia).
    replace (Z.to_nat (12 + 4 * Z.of_nat j)) with (12 + 4 * j)%nat by lia.
    replace (12 + 4 * S j)%nat with (12 + 4 * j + 4)%nat by lia.
    rewrite <- (drop_drop data 4 (12 + 4 * j)), take_take_drop. f_equal. lia.
Qed.

(** X12. Decoding then encoding is the identity on a well-formed
    container: when octets parse to a container and hold exactly the
    parameters that were read, serialising the parsed fields little-endian
    gives the octets back; and if the container is a command whose length
    field is the buffer length, [buildMtpCommandPacket] rebuilds exactly
    these octets from the parsed code, transaction ID and parameters. *)
Theorem parse_then_build data r :
  octets data = true -> parseMtpResponse data = Ok (Some r) ->
  len data = 12 + 4 * len (r_params r) ->
  containerOf r = data
  /\ (r_type r = COMMAND -> r_length r = len data ->
      buildMtpCommandPacket (r_code r) (r_transactionId r) (r_params r)
      = Ok data).
Proof.
  intros Hoct (Hlen & Hfit & ->)%parse_some Hexact.
  cbn [r_length r_type r_code r_transactionId r_params] in *.
  assert (0 <= claimedParams data) by (unfold claimedParams; lia).
  unfold len at 2 in Hexact. rewrite length_map, length_seq in Hexact.
  assert (containerOf
            (mkResponse (uint_at 4 data 0) (uint_at 2 data 4) (uint_at 2 data 6)
               (uint_at 4 data 8)
               (map (fun k => uint_at 4 data (12 + 4 * Z.of_nat k))
                    (seq 0 (Z.to_nat (claimedParams data))))) = data) as Hser.
  { unfold containerOf. cbn [r_length r_type r_code r_transactionId r_params].
    rewrite !le_bytes_uint_at by (done || simpl; lia).
    rewrite params_chunks by (done || lia).
    rewrite (take_ge (drop (12 + 4 * 0) data))
      by (rewrite length_drop; unfold len in *; lia).
    symmetry. apply split_header. }
  split; [exact Hser|].
  intros Htype Hlength. rewrite ts_build_container.
  f_equal. etrans; [|exact Hser]. unfold commandContainer, containerOf.
  cbn [r_length r_type r_code r_transactionId r_params].
  rewrite Htype, Hlength, Hexact. do 2 f_equal.
  unfold len. rewrite length_map, length_seq. lia.
Qed.

Lemma parse_then_build_witness :
  (octets [16;0;0;0; 1;0; 1;0xFE; 1;0;0;0; 0x78;0x56;0x34;0x12] = true
   /\ parseMtpResponse [16;0;0;0; 1;0; 1;0xFE; 1;0;0;0; 0x78;0x56;0x34;0x12]
      = Ok (Some (mkResponse 16 1 0xFE01 1 [0x12345678]))
   /\ len [16;0;0;0; 1;0; 1;0xFE; 1;0;0;0; 0x78;0x56;0x34;0x12]
      = 12 + 4 * len (r_params (mkResponse 16 1 0xFE01 1 [0x12345678])))
  /\ containerOf (mkResponse 16 1 0xFE01 1 [0x12345678])
     = [16;0;0;0; 1;0; 1;0xFE; 1;0;0;0; 0x78;0x56;0x34;0x12].
Proof.
  assert (octets [16;0;0;0; 1;0; 1;0xFE; 1;0;0;0; 0x78;0x56;0x34;0x12] = true)
    as H1 by reflexivity.
  assert (parseMtpResponse [16;0;0;0; 1;0; 1;0xFE; 1;0;0;0; 0x78;0x56;0x34;0x12]
          = Ok (Some (mkResponse 16 1 0xFE01 1 [0x12345678]))) as H2
    by reflexivity.
  assert (len [16;0;0;0; 1;0; 1;0xFE; 1;0;0;0; 0x78;0x56;0x34;0x12]
          = 12 + 4 * len (r_params (mkResponse 16 1 0xFE01 1 [0x12345678])))
    as H3 by reflexivity.
  split; [done|].
  exact (proj1 (parse_then_build _ _ H1 H2 H3)).
Defined.

End CodecExtras.

(** ** More properties of the session *)

Section SessionExtras.

Import UsbMtpModule Session Reach UseUsbDevice.



Lemma sendRawData_state s data io : (sendRawData s data io).1.1 = s.
Proof.
  unfold sendRawData.
  destruct (currentConnection s), (bulkOutEndpoint s); try done.
  cbv zeta. by destruct (out_result io <? 0).
Qed.


(** X14. [sendMtpCommand] has three outcomes and never [SEND_ERROR]:
    [NOT_CONNECTED] exactly when no transport is bound, [TRANSFER_FAILED]
    exactly when one is bound and the write returns a negative value, and
    a resolved result otherwise.  It makes at most one OUT transfer and at
    most one IN transfer of 512 bytes, and the IN transfer happens exactly
    when the write did not fail and an IN endpoint exists. *)
Theorem sendMtpCommand_outcomes s opcode params io :
  ((sendMtpCommand s opcode params io).1.2 = Reject "NOT_CONNECTED"
   <-> connected s = false)
  /\ ((sendMtpCommand s opcode params io).1.2 = Reject "TRANSFER_FAILED"
      <-> connected s = true /\ out_result io < 0)
  /\ ((exists r, (sendMtpCommand s opcode params io).1.2 = Resolve r)
      <-> connected s = true /\ 0 <= out_result io)
  /\ (sendMtpCommand s opcode params io).1.2 <> Reject "SEND_ERROR"
  /\ (sendMtpCommand s opcode params io).2
     = match bulkOutEndpoint s with
       | Some outEndpoint =>
           if connected s then
             BulkOut outEndpoint
                     (commandContainer opcode (transactionId s) (paramList params))
                     (12 + 4 * len (paramList params)) BULK_TRANSFER_TIMEOUT_MS
             :: match bulkInEndpoint s with
                | Some inEndpoint =>
                    if out_result io <? 0 then []
                    else [BulkIn inEndpoint 512 BULK_TRANSFER_TIMEOUT_MS]
                | None => []
                end
           else []
       | None => []
       end.
Proof.
  destruct (connected s) eqn:Hconn.
  - destruct (connected_inv s Hconn) as (c & o & Hc & Ho).
    rewrite (sendMtpCommand_connected s opcode params io c o) by done.
    rewrite Ho, len_commandContainer.
    destruct (Z.ltb_spec (out_result io) 0);
      [|destruct (bulkInEndpoint s) as [i|]; [destruct (in_result io >? 0)|]];
      cbn [fst snd app];
      (split; [split; [done|done]|]);
      (split; [split; [intros ?; (done || lia)|intros [? ?]; (done || lia)]|]);
      (split; [split; [intros [? ?]; (done || (split; [done|lia]))
                      |intros [? ?]; (lia || eauto)]|]);
      (split; [done|]);
      try destruct (bulkInEndpoint s); reflexivity.
  - rewrite sendMtpCommand_not_connected by done. cbn [fst snd].
    split; [done|]. split; [split; [done|by intros [? ?]]|].
    split; [split; [by intros [? ?]|by intros [? ?]]|].
    split; [done|]. by destruct (bulkOutEndpoint s).
Qed.

Lemma scanLast_good all eps found :
  (forall e, In e eps -> In e all) ->
  goodEndpoints all found -> goodEndpoints all (scanLast eps found).
Proof.
  unfold scanLast. revert found.
  induction eps as [|e eps IH]; intros found Hsub Hgood; [done|].
  cbn [foldl]. apply IH; [intros e' He'; apply Hsub; by right|].
  assert (In e all) as He by (apply Hsub; by left).
  destruct Hgood as [Hout Hin]. unfold goodEndpoints, isBulkOut, isBulkIn.
  destruct (Z.eqb_spec (e_type e) USB_ENDPOINT_XFER_BULK) as [Ht|]; [|done].
  destruct (Z.eqb_spec (e_direction e) USB_DIR_OUT) as [Hd|].
  { cbn [fst snd]. split; [|done]. intros o [= <-].
    by rewrite Ht, Hd. }
  destruct (Z.eqb_spec (e_direction e) USB_DIR_IN) as [Hd|]; [|done].
  cbn [fst snd]. split; [done|]. intros i [= <-]. by rewrite Ht, Hd.
Qed.

Lemma scanFirst_good all eps found :
  (forall e, In e eps -> In e all) ->
  goodEndpoints all found -> goodEndpoints all (scanFirst eps found).
Proof.
  unfold scanFirst. revert found.
  induction eps as [|e eps IH]; intros found Hsub Hgood; [done|].
  cbn [foldl]. apply IH; [intros e' He'; apply Hsub; by right|].
  assert (In e all) as He by (apply Hsub; by left).
  destruct Hgood as [Hout Hin]. unfold goodEndpoints, isBulkOut, isBulkIn.
  destruct (Z.eqb_spec (e_type e) USB_ENDPOINT_XFER_BULK) as [Ht|]; [|done].
  destruct (Z.eqb_spec (e_direction e) USB_DIR_OUT) as [Hd|]; cbn [andb].
  { destruct (bool_decide (found.1 = None)).
    - cbn [fst snd]. split; [|done]. intros o [= <-]. by rewrite Ht, Hd.
    - destruct (Z.eqb_spec (e_direction e) USB_DIR_IN); [|done].
      unfold USB_DIR_OUT, USB_DIR_IN in *. lia. }
  destruct (Z.eqb_spec (e_direction e) USB_DIR_IN) as [Hd|]; [|done].
  cbn [andb]. destruct (bool_decide (found.2 = None)); [|done].
  cbn [fst snd]. split; [done|]. intros i [= <-]. by rewrite Ht, Hd.
Qed.

Lemma findMtpInterface_good all intfs found :
  (forall intf e, In intf intfs -> In e (endpoints intf) -> In e all) ->
  goodEndpoints all found ->
  goodEndpoints all (findMtpInterface intfs found).2
  /\ (forall intf, (findMtpInterface intfs found).1 = Some intf -> In intf intfs).
Proof.
  revert found. induction intfs as [|intf intfs IH]; intros found Hsub Hgood.
  - cbn. split; [done|]. done.
  - cbn [findMtpInterface].
    assert (forall f, goodEndpoints all f ->
              goodEndpoints all (findMtpInterface intfs f).2
              /\ (forall i, (findMtpInterface intfs f).1 = Some i ->
                            In i (intf :: intfs))) as Hrest.
    { intros f Hf. destruct (IH f) as [H1 H2]; [|done|].
      - intros i e Hi. apply Hsub. by right.
      - split; [done|]. intros i Hi. right. by apply H2. }
    destruct (_ || _).
    + pose proof (scanLast_good all (endpoints intf) found
                    (fun e He => Hsub intf e (or_introl eq_refl) He) Hgood) as Hs.
      destruct (scanLast (endpoints intf) found) as [[o|] [i|]] eqn:Hscan;
        try (by apply Hrest).
      cbn [fst snd]. split; [done|]. intros ? [= <-]. by left.
    + by apply Hrest.
Qed.

Lemma findBulkInterface_good all intfs found :
  (forall intf e, In intf intfs -> In e (endpoints intf) -> In e all) ->
  goodEndpoints all found ->
  goodEndpoints all (findBulkInterface intfs found).2
  /\ (forall intf, (findBulkInterface intfs found).1 = Some intf -> In intf intfs).
Proof.
  revert found. induction intfs as [|intf intfs IH]; intros found Hsub Hgood.
  - cbn. split; [done|]. done.
  - cbn [findBulkInterface].
    assert (goodEndpoints all (None, None)) as Hnone by (split; intros ? [=]).
    pose proof (scanFirst_good all (endpoints intf) (None, None)
                  (fun e He => Hsub intf e (or_introl eq_refl) He) Hnone) as Hs.
    destruct (scanFirst (endpoints intf) (None, None)) as [[o|] i] eqn:Hscan;
      cbn [fst snd].
    + split; [done|]. intros ? [= <-]. by left.
    + destruct (IH (None, i)) as [H1 H2]; [|done|].
      * intros i' e Hi. apply Hsub. by right.
      * split; [done|]. intros i' Hi. right. by apply H2.
Qed.

(** What [openConnection] does to the state, for each way it can end. *)
Lemma openConnection_cases s m id :
  (exists code, openConnection s m id = (s, Reject code)
                /\ (code = "DEVICE_NOT_FOUND" \/ code = "NO_PERMISSION")%string)
  \/ (exists code, openConnection s m id = (closeConnection s, Reject code)
                   /\ (code = "CONNECTION_FAILED" \/ code = "NO_MTP_INTERFACE"
                       \/ code = "CLAIM_FAILED")%string)
  \/ (exists device connection intf out inn,
        openConnection s m id
        = (mkState (Some device) (Some connection) (Some intf) (Some out) inn 1,
           Resolve (mkConnectionInfo (deviceId device) (interfaceClass intf)
                      (e_address out)
                      (match inn with Some e => e_address e | None => -1 end)))
        /\ findDeviceById m id = Some device
        /\ hasPermission m device = true
        /\ openDevice m device = Some connection
        /\ claimInterface m connection intf = true
        /\ In intf (interfaces device)
        /\ goodEndpoints (endpointsOf device) (Some out, inn)).
Proof.
  unfold openConnection.
  destruct (findDeviceById m id) as [device|] eqn:Hfind; [|solve [left; eexists; split; [reflexivity|auto]]].
  destruct (hasPermission m device) eqn:Hperm; cbn [negb]; [|solve [left; eexists; split; [reflexivity|auto]]].
  destruct (openDevice m device) as [connection|] eqn:Hopen;
    [|solve [right; left; eexists; split; [reflexivity|auto]]].
  assert (forall intf e, In intf (interfaces device) -> In e (endpoints intf) ->
                         In e (endpointsOf device)) as Hsub.
  { intros intf e Hi He. apply in_flat_map. eauto. }
  assert (goodEndpoints (endpointsOf device) (None, None)) as Hnone
    by (split; intros ? [=]).
  destruct (findMtpInterface_good _ (interfaces device) (None, None) Hsub Hnone)
    as [Hg1 Hi1].
  set (r1 := findMtpInterface (interfaces device) (None, None)) in *.
  assert (goodEndpoints (endpointsOf device)
            (match r1.1 with
             | Some _ => r1
             | None => findBulkInterface (interfaces device) r1.2
             end).2
          /\ (forall intf,
                (match r1.1 with
                 | Some _ => r1
                 | None => findBulkInterface (interfaces device) r1.2
                 end).1 = Some intf -> In intf (interfaces device))) as [Hg Hi].
  { destruct (r1.1) eqn:H1; [|by apply findBulkInterface_good].
    split; [exact Hg1|]. intros intf Hintf. apply Hi1. congruence. }
  destruct (match r1.1 with
            | Some _ => r1
            | None => findBulkInterface (interfaces device) r1.2
            end) as [[intf|] [[out|] inn]]; 
    try solve [right; left; eexists; split; [reflexivity|auto]].
  destruct (claimInterface m connection intf) eqn:Hclaim; cbn [negb];
    [|solve [right; left; eexists; split; [reflexivity|auto]]].
  right; right. exists device, connection, intf, out, inn.
  do 5 (split; [done|]). split; [by apply Hi|exact Hg].
Qed.

(** X15. How [openConnection] can end.  When it resolves, the device
    with the requested ID is known and permitted, a transport is bound to
    it and the transaction counter is 1.  When it rejects with
    [DEVICE_NOT_FOUND] or [NO_PERMISSION] the state is untouched.  Every
    other rejection ([CONNECTION_FAILED], [NO_MTP_INTERFACE],
    [CLAIM_FAILED]) comes after the previous connection was closed: the
    session that existed before the call is gone, its counter is kept. *)
Theorem openConnection_outcome s m id :
  match (openConnection s m id).2 with
  | Resolve info =>
      exists device,
        findDeviceById m id = Some device /\ deviceId device = id
        /\ hasPermission m device = true
        /\ currentDevice (openConnection s m id).1 = Some device
        /\ connected (openConnection s m id).1 = true
        /\ isConnected (openConnection s m id).1 = true
        /\ transactionId (openConnection s m id).1 = 1
        /\ ci_deviceId info = id
  | Reject code =>
      ((openConnection s m id).1 = s
       /\ (code = "DEVICE_NOT_FOUND" \/ code = "NO_PERMISSION")%string)
      \/ ((openConnection s m id).1 = closeConnection s
          /\ connected (openConnection s m id).1 = false
          /\ transactionId (openConnection s m id).1 = transactionId s
          /\ (code = "CONNECTION_FAILED" \/ code = "NO_MTP_INTERFACE"
              \/ code = "CLAIM_FAILED")%string)
  end.
Proof.
  destruct (openConnection_cases s m id)
    as [(code & -> & Hcode)|[(code & -> & Hcode)
       |(device & c & intf & out & inn & -> & Hfind & Hperm & _)]];
    cbn [fst snd].
  - by left.
  - right. done.
  - exists device. pose proof Hfind as Hid.
    apply find_some in Hid as [_ Hid%Z.eqb_eq]. done.
Qed.

(** X16. The endpoints that [openConnection] binds: the interface it
    claimed is an interface of the device; the OUT endpoint is a bulk OUT
    endpoint of the device and the IN endpoint, when there is one, a bulk
    IN endpoint of the device; the resolved information carries their
    addresses, with -1 for a missing IN endpoint. *)
Theorem openConnection_endpoints s m id s' info :
  openConnection s m id = (s', Resolve info) ->
  exists device connection intf out,
    currentDevice s' = Some device
    /\ currentConnection s' = Some connection
    /\ currentInterface s' = Some intf
    /\ bulkOutEndpoint s' = Some out
    /\ In intf (interfaces device)
    /\ claimInterface m connection intf = true
    /\ isBulkOut out = true /\ In out (endpointsOf device)
    /\ ci_interfaceClass info = interfaceClass intf
    /\ ci_outEndpoint info = e_address out
    /\ match bulkInEndpoint s' with
       | Some inn => isBulkIn inn = true /\ In inn (endpointsOf device)
                     /\ ci_inEndpoint info = e_address inn
       | None => ci_inEndpoint info = -1
       end.
Proof.
  intros Hopen.
  destruct (openConnection_cases s m id)
    as [(code & H & _)|[(code & H & _)
       |(device & c & intf & out & inn & H & _ & _ & _ & Hclaim & Hin & Hgo & Hgi)]];
    rewrite H in Hopen; try discriminate.
  injection Hopen as <- <-. exists device, c, intf, out.
  cbn [currentDevice currentConnection currentInterface bulkOutEndpoint
       bulkInEndpoint ci_interfaceClass ci_outEndpoint ci_inEndpoint].
  destruct (Hgo out eq_refl) as [Ho1 Ho2].
  repeat split; try done.
  destruct inn as [i|]; [|done]. destruct (Hgi i eq_refl). done.
Qed.

Lemma openConnection_endpoints_witness :
  openConnection initial Fixture.manager 1002
  = (Fixture.opened, Resolve Fixture.openedInfo)
  /\ exists device connection intf out,
       currentDevice Fixture.opened = Some device
       /\ currentConnection Fixture.opened = Some connection
       /\ currentInterface Fixture.opened = Some intf
       /\ bulkOutEndpoint Fixture.opened = Some out
       /\ In intf (interfaces device)
       /\ claimInterface Fixture.manager connection intf = true
       /\ isBulkOut out = true /\ In out (endpointsOf device)
       /\ ci_interfaceClass Fixture.openedInfo = interfaceClass intf
       /\ ci_outEndpoint Fixture.openedInfo = e_address out
       /\ match bulkInEndpoint Fixture.opened with
          | Some inn => isBulkIn inn = true /\ In inn (endpointsOf device)
                        /\ ci_inEndpoint Fixture.openedInfo = e_address inn
          | None => ci_inEndpoint Fixture.openedInfo = -1
          end.
Proof.
  assert (openConnection initial Fixture.manager 1002
          = (Fixture.opened, Resolve Fixture.openedInfo)) as H by reflexivity.
  split; [exact H|].
  exact (openConnection_endpoints initial Fixture.manager 1002
           Fixture.opened Fixture.openedInfo H).
Defined.

Lemma wellFormed_closed s :
  - 2 ^ 31 <= transactionId s < 2 ^ 31 -> wellFormed (closeConnection s).
Proof. intros H. split; [by right|]. split; [exact H|]. by split. Qed.

Lemma wellFormed_set_transactionId s t :
  wellFormed s -> - 2 ^ 31 <= t < 2 ^ 31 -> wellFormed (set_transactionId s t).
Proof. intros (Hb & _ & Ho & Hi) Ht. by split. Qed.

Lemma reachable_invariant s : reachable s -> wellFormed s.
Proof.
  induction 1 as [|s m id _ IH|s _ IH|s op params io _ IH|s data io _ IH
                  |s device _ IH].
  - split; [by right|]. split; [simpl; lia|]. by split.
  - destruct (openConnection_cases s m id)
      as [(code & -> & _)|[(code & -> & _)
         |(d & c & intf & out & inn & -> & _ & _ & _ & _ & _ & Hgo & Hgi)]];
      cbn [fst].
    + exact IH.
    + apply wellFormed_closed, IH.
    + split; [by left|]. split; [simpl; lia|]. split.
      * intros o [= <-]. by destruct (Hgo out eq_refl).
      * intros i Hi. by destruct (Hgi i Hi).
  - apply wellFormed_closed, IH.
  - rewrite sendMtpCommand_state. destruct (connected s); [|exact IH].
    apply wellFormed_set_transactionId; [exact IH|apply int32_range].
  - rewrite sendRawData_state. exact IH.
  - unfold onDeviceDetached. destruct (currentDevice s); [|exact IH].
    destruct (_ =? _); [apply wellFormed_closed, IH|exact IH].
Qed.

(** X17. In every state that the module can reach (from its initial
    state through [openConnection], [closeConnection], [sendMtpCommand],
    [sendRawData] and device detachment), device, connection, interface
    and OUT endpoint are set together or not at all, an IN endpoint is
    only set with them, the bound endpoints are bulk endpoints of their
    direction, and the transaction counter is a valid [Int]; hence
    [isConnected] answers true exactly when [sendMtpCommand] would find
    its transport. *)
Theorem reachable_wellFormed s :
  reachable s ->
  wellFormed s
  /\ isConnected s = connected s
  /\ (connected s = false -> unbound s = true).
Proof.
  intros Hw%reachable_invariant. split; [exact Hw|].
  destruct Hw as ([Hb|Hu] & _); unfold bound, unbound, isConnected, connected in *;
    destruct (currentDevice s), (currentConnection s), (currentInterface s),
      (bulkOutEndpoint s), (bulkInEndpoint s); done.
Qed.

Lemma reachable_wellFormed_witness :
  reachable Fixture.opened
  /\ isConnected Fixture.opened = connected Fixture.opened.
Proof.
  assert (reachable Fixture.opened) as H
    by exact (reach_open initial Fixture.manager 1002 reach_initial).
  split; [exact H|]. exact (proj1 (proj2 (reachable_wellFormed _ H))).
Defined.



Lemma receiveBuffer_eq io :
  receiveBuffer io
  = take 512 (in_bytes io)
    ++ replicate (512 - length (take 512 (in_bytes io))) 0.
Proof.
  unfold receiveBuffer.
  assert (length (take 512 (in_bytes io)) <= 512)%nat as Hle
    by (rewrite length_take; lia).
  replace (replicate 512 0)
    with (replicate (length (take 512 (in_bytes io))) 0
          ++ replicate (512 - length (take 512 (in_bytes io))) 0)
    by (rewrite <- replicate_add; f_equal; lia).
  apply list_inserts_0_r. by rewrite length_replicate.
Qed.

Lemma octets_zeros n : octets (replicate n 0) = true.
Proof. induction n as [|n IH]; [done|]. exact IH. Qed.

Lemma octets_receiveBuffer io :
  octets (in_bytes io) = true -> octets (receiveBuffer io) = true.
Proof.
  intros H. rewrite receiveBuffer_eq, octets_app, octets_zeros, andb_true_r.
  by apply octets_take.
Qed.

Lemma uint_at_take width (l : list Z) (n : nat) off :
  0 <= off -> off + Z.of_nat width <= Z.of_nat n ->
  uint_at width (take n l) off = uint_at width l off.
Proof.
  intros H0 H1. unfold uint_at. f_equal.
  replace n with (Z.to_nat off + (n - Z.to_nat off))%nat at 1 by lia.
  rewrite <- take_drop_commute, take_take. f_equal. lia.
Qed.

(** X19. The response code that the native module extracts is the one
    that the TypeScript parser reads from the response data handed to
    JavaScript.  When the device delivered octets and a response was
    returned, the response data has as many bytes as were read; if
    [parseMtpResponse] parses it, its code is the reported response code;
    if it is shorter than a header, the reported code is the sentinel -1;
    and if the parser throws on an over-claiming length field, the
    reported code is still the 16-bit field at offset 6. *)
Theorem native_code_matches_parse s op params io r d :
  octets (in_bytes io) = true ->
  (sendMtpCommand s op params io).1.2 = Resolve r ->
  responseData r = Some d ->
  len d = in_result io
  /\ octets d = true
  /\ match MtpUtils.parseMtpResponse d with
     | Ok (Some resp) => responseCode r = MtpUtils.r_code resp
     | Ok None => responseCode r = -1
     | Throw _ => responseCode r = uint_at 2 d 6
     end.
Proof.
  intros Hoct Hres Hdata.
  assert (connected s = true) as Hconn.
  { destruct (connected s) eqn:Hc; [done|].
    by rewrite sendMtpCommand_not_connected in Hres. }
  destruct (connected_inv s Hconn) as (c & o & Hc & Ho).
  rewrite (sendMtpCommand_connected s op params io c o) in Hres by done.
  cbv zeta in Hres.
  destruct (out_result io <? 0); [discriminate|].
  destruct (bulkInEndpoint s); cbn [fst snd] in Hres;
    [|injection Hres as <-; discriminate].
  destruct (Z.gtb_spec (in_result io) 0) as [Hpos|];
    [|injection Hres as <-; discriminate].
  injection Hres as <-. cbn [responseData responseCode] in *.
  injection Hdata as <-.
  pose proof (length_receiveBuffer io) as Hbuf.
  pose proof (octets_receiveBuffer io Hoct) as Hobuf.
  assert (len (copyOf (receiveBuffer io) (in_result io)) = in_result io) as Hlen.
  { unfold copyOf, len. rewrite length_app, length_take, length_replicate. lia. }
  split; [exact Hlen|]. split.
  { unfold copyOf. rewrite octets_app, octets_zeros, andb_true_r.
    by apply octets_take. }
  destruct (Z.geb_spec (in_result io) 12) as [Hfull|Hshort].
  - assert (uint_at 2 (copyOf (receiveBuffer io) (in_result io)) 6
            = receivedCode io) as Hcode.
    { unfold copyOf, receivedCode.
      rewrite uint_at_app_l
        by (simpl; unfold len; rewrite ?length_take; lia).
      rewrite uint_at_take by (simpl; lia).
      pose proof (uint_at_bound 2 (receiveBuffer io) 6 Hobuf) as Hb.
      change (256 ^ Z.of_nat 2) with (2 ^ 16) in Hb.
      symmetry. apply Z.mod_small. lia. }
    rewrite parse_header by lia.
    destruct (MtpUtils.readParams _ _ _ _); cbn [rbind MtpUtils.r_code]; done.
  - unfold MtpUtils.parseMtpResponse. rewrite Hlen.
    by destruct (Z.ltb_spec (in_result io) 12); [|lia].
Qed.

Lemma native_code_matches_parse_witness :
  (octets (in_bytes (mkIO 12 12 [12;0;0;0; 3;0; 1;0x20; 1;0;0;0])) = true
   /\ (sendMtpCommand Fixture.opened 0xFE01 None
         (mkIO 12 12 [12;0;0;0; 3;0; 1;0x20; 1;0;0;0])).1.2
      = Resolve (mkResult 12 0xFE01 1 0x2001 true
                   (Some [12;0;0;0; 3;0; 1;0x20; 1;0;0;0]))
   /\ responseData (mkResult 12 0xFE01 1 0x2001 true
                      (Some [12;0;0;0; 3;0; 1;0x20; 1;0;0;0]))
      = Some [12;0;0;0; 3;0; 1;0x20; 1;0;0;0])
  /\ len [12;0;0;0; 3;0; 1;0x20; 1;0;0;0]
     = in_result (mkIO 12 12 [12;0;0;0; 3;0; 1;0x20; 1;0;0;0]).
Proof.
  assert (octets (in_bytes (mkIO 12 12 [12;0;0;0; 3;0; 1;0x20; 1;0;0;0])) = true)
    as H1 by reflexivity.
  assert ((sendMtpCommand Fixture.opened 0xFE01 None
             (mkIO 12 12 [12;0;0;0; 3;0; 1;0x20; 1;0;0;0])).1.2
          = Resolve (mkResult 12 0xFE01 1 0x2001 true
                       (Some [12;0;0;0; 3;0; 1;0x20; 1;0;0;0]))) as H2
    by (vm_compute; reflexivity).
  assert (responseData (mkResult 12 0xFE01 1 0x2001 true
                          (Some [12;0;0;0; 3;0; 1;0x20; 1;0;0;0]))
          = Some [12;0;0;0; 3;0; 1;0x20; 1;0;0;0]) as H3 by reflexivity.
  split; [done|].
  exact (proj1 (native_code_matches_parse _ _ _ _ _ _ H1 H2 H3)).
Defined.

End SessionExtras.

(** ** The list of available devices *)

Section DeviceListProperties.

Import UseUsbDevice.

Context {Device : Type} (idOf : Device -> Z).

Lemma attached_known prev d :
  existsb (fun x => idOf x =? idOf d) prev = true <-> In (idOf d) (map idOf prev).
Proof.
  rewrite existsb_exists, in_map_iff. split.
  - intros (x & Hx & Heq%Z.eqb_eq). eauto.
  - intros (x & Heq & Hx). exists x. split; [done|]. by apply Z.eqb_eq.
Qed.

Lemma detached_members prev id x :
  In x (deviceDetached idOf prev id) <-> In x prev /\ idOf x <> id.
Proof.
  unfold deviceDetached. rewrite filter_In, negb_true_iff, Z.eqb_neq. done.
Qed.

Lemma detached_NoDup prev id :
  NoDup (map idOf prev) -> NoDup (map idOf (deviceDetached idOf prev id)).
Proof.
  induction prev as [|x prev IH]; [done|]. cbn [map].
  intros [Hx Hprev]%NoDup_cons. specialize (IH Hprev).
  unfold deviceDetached in *. cbn [List.filter].
  destruct (negb (idOf x =? id)); [|done]. cbn [map].
  apply NoDup_cons. split; [|done].
  intros Hin%list_elem_of_In%in_map_iff. destruct Hin as (y & Hy & Hin).
  apply filter_In in Hin as [Hin _]. apply Hx, list_elem_of_In, in_map_iff. eauto.
Qed.

(** X20. The hook's list of available devices keeps device IDs unique.
    Attaching a device adds it at the end unless its ID is already
    listed, so a repeated attach event changes nothing; detaching removes
    every entry with the ID and nothing else; and detaching a device that
    was newly attached restores the list. *)
Theorem deviceList_updates prev d id :
  NoDup (map idOf prev) ->
  NoDup (map idOf (deviceAttached idOf prev d))
  /\ In (idOf d) (map idOf (deviceAttached idOf prev d))
  /\ deviceAttached idOf (deviceAttached idOf prev d) d
     = deviceAttached idOf prev d
  /\ (~ In (idOf d) (map idOf prev) ->
      deviceAttached idOf prev d = prev ++ [d]
      /\ deviceDetached idOf (deviceAttached idOf prev d) (idOf d) = prev)
  /\ NoDup (map idOf (deviceDetached idOf prev id))
  /\ ~ In id (map idOf (deviceDetached idOf prev id))
  /\ (forall x, In x (deviceDetached idOf prev id) <-> In x prev /\ idOf x <> id).
Proof.
  intros Hnd. unfold deviceAttached.
  destruct (existsb (fun x => idOf x =? idOf d) prev) eqn:Hex.
  - pose proof (proj1 (attached_known prev d) Hex) as Hin.
    split; [done|]. split; [done|]. split; [by rewrite Hex|].
    split; [done|]. split; [by apply detached_NoDup|]. split.
    + intros (x & Hx & [_ Hne]%detached_members)%in_map_iff. done.
    + apply detached_members.
  - assert (~ In (idOf d) (map idOf prev)) as Hnew.
    { intros Hin%attached_known. congruence. }
    split.
    { rewrite map_app. apply NoDup_app. split; [done|]. split.
      - intros y Hy [->|[]%elem_of_nil]%elem_of_cons.
        by apply Hnew, list_elem_of_In.
      - apply NoDup_singleton. }
    split; [rewrite map_app, in_app_iff; right; by left|].
    split.
    { rewrite existsb_app. cbn [existsb]. by rewrite Z.eqb_refl, orb_true_r. }
    split.
    { intros _. split; [done|]. unfold deviceDetached.
      rewrite List.filter_app. cbn [List.filter]. rewrite Z.eqb_refl.
      cbn [negb]. rewrite app_nil_r. apply filter_all.
      apply forallb_forall. intros x Hx. apply negb_true_iff, Z.eqb_neq.
      intros Heq. apply Hnew, in_map_iff. eauto. }
    split; [by apply detached_NoDup|]. split.
    + intros (x & Hx & [_ Hne]%detached_members)%in_map_iff. done.
    + apply detached_members.
Qed.

End DeviceListProperties.

Lemma deviceList_updates_witness :
  NoDup (map (fun x : Z => x) [1; 2])
  /\ NoDup (map (fun x : Z => x)
                (UseUsbDevice.deviceAttached (fun x : Z => x) [1; 2] 3)).
Proof.
  assert (NoDup (map (fun x : Z => x) [1; 2])) as H
    by (cbn [map]; repeat constructor; rewrite ?elem_of_cons, ?elem_of_nil; lia).
  split; [exact H|].
  exact (proj1 (deviceList_updates (fun x : Z => x) [1; 2] 3 0 H)).
Defined.

(** The first endpoint search does not reset its candidates between
    interfaces: with a bulk OUT endpoint on one matching interface and a
    bulk IN endpoint on the next, the second interface is claimed and the
    OUT endpoint of the first is bound. *)
Example endpoints_from_two_interfaces :
  let outEp := UsbMtpModule.mkEndpoint 2 0 0x01 in
  let inEp := UsbMtpModule.mkEndpoint 2 0x80 0x82 in
  let first := UsbMtpModule.mkInterface 6 [outEp] in
  let second := UsbMtpModule.mkInterface 0xFF [inEp] in
  let device := UsbMtpModule.mkDevice 7 [first; second] in
  let manager :=
    UsbMtpModule.mkManager [device] (fun _ => true) (fun _ => Some 1)
                           (fun _ _ => true) in
  (UsbMtpModule.openConnection UsbMtpModule.initial manager 7).1
  = UsbMtpModule.mkState (Some device) (Some 1) (Some second)
                         (Some outEp) (Some inEp) 1.
Proof. reflexivity. Qed.

Section MoreAdvisory.

Import JS MtpUtils.

(** X21. Exactly which opcodes are suggested: the predecessor when the
    opcode is positive, the successor when the opcode is below 0xFFFF,
    and, for an odd opcode of the Samsung range, the next odd opcode when
    that is still in the range; each only if it is a 16-bit opcode. *)
Theorem getExplorationSuggestions_members currentOpcode s :
  In s (getExplorationSuggestions currentOpcode)
  <-> 0 <= s <= 0xFFFF
      /\ ((s = currentOpcode - 1 /\ 0 < currentOpcode)
          \/ (s = currentOpcode + 1 /\ currentOpcode < 0xFFFF)
          \/ (s = currentOpcode + 2 /\ 0xFE00 <= currentOpcode
              /\ currentOpcode + 2 <= 0xFEFF
              /\ Z.rem currentOpcode 2 <> 0)).
Proof.
  unfold getExplorationSuggestions. cbv zeta.
  rewrite filter_In.
  assert ((s >=? 0) && (s <=? 0xFFFF) = true <-> 0 <= s <= 0xFFFF) as ->.
  { rewrite andb_true_iff, Z.geb_leb, !Z.leb_le. lia. }
  destruct (Z.gtb_spec currentOpcode 0), (Z.ltb_spec currentOpcode 0xFFFF),
    (Z.geb_spec currentOpcode 0xFE00), (Z.leb_spec currentOpcode 0xFEFF);
    cbn [andb app];
    try destruct (Z.eqb_spec (Z.rem currentOpcode 2) 0);
    try (destruct (Z.leb_spec (currentOpcode + 1) 0xFEFF));
    try (destruct (Z.leb_spec (currentOpcode + 2) 0xFEFF));
    cbn [andb app existsb negb orb];
    rewrite ?Z.eqb_refl, ?orb_true_r; cbn [negb andb orb];
    repeat match goal with
           | |- context [?a =? ?b] => destruct (Z.eqb_spec a b); [lia|]
           end;
    cbn [negb andb orb app In]; lia.
Qed.



End MoreAdvisory.
